(** * signalp3.py: the chunked SignalP wrapper

    A shallow embedding of [tools/seq_analysis/signalp3.py]: the FASTA
    generator, the truncating splitter, the per-chunk invocation loop with
    its clean-up on failure, and the tabular normaliser and merge.

    Python [str] values are [string]; the file system is a finite map from
    paths to file contents; every effect of the script (files opened for
    writing, data written, files removed, commands run, text sent to
    stderr) is also recorded in a trace, so that statements such as "no
    file is created" can be read off the run. *)

From stdpp Require Import gmap strings pretty list.
From Stdlib Require Import ZArith Ascii.

Local Open Scope string_scope.
Local Open Scope list_scope.
Local Open Scope nat_scope.

(** ** Python [str] primitives *)

Module Str.

Definition tab : ascii := "009"%char.
Definition lf : ascii := "010"%char.
Definition cr : ascii := "013"%char.
Definition squote : ascii := "039"%char.
Definition dquote : ascii := "034"%char.

Definition of_char (c : ascii) : string := String c "".

(** Truth value of a string: [if s:]. *)
Definition truthy (s : string) : bool :=
  match s with "" => false | String _ _ => true end.

(** [s.startswith(p)]. *)
Definition startswith (s p : string) : bool := String.prefix p s.

(** [s[1:]]. *)
Definition tail (s : string) : string :=
  match s with "" => "" | String _ r => r end.

Fixpoint take_chars (n : nat) (s : string) : string :=
  match n, s with
  | S k, String c r => String c (take_chars k r)
  | _, _ => ""
  end.

(** [s[:t]] for a Python int [t]: a negative bound counts from the end. *)
Definition slice_to (t : Z) (s : string) : string :=
  if (0 <=? t)%Z then take_chars (Z.to_nat t) s
  else take_chars (String.length s - Z.to_nat (- t)) s.

(** Characters removed by [strip()] and separating fields in [split()]. *)
Definition is_space (c : ascii) : bool := Ascii.is_space c.

Definition nonspace (c : ascii) : bool := negb (is_space c).

Definition is_crlf (c : ascii) : bool :=
  bool_decide (c = cr) || bool_decide (c = lf).

Fixpoint lstrip (s : string) : string :=
  match s with
  | "" => ""
  | String c r => if is_space c then lstrip r else s
  end.

(** [s.rstrip(chars)], the characters given as a predicate. *)
Fixpoint rstrip_chars (p : ascii → bool) (s : string) : string :=
  match s with
  | "" => ""
  | String c r =>
      let r' := rstrip_chars p r in
      if p c && negb (truthy r') then "" else String c r'
  end.

Definition rstrip (s : string) : string := rstrip_chars is_space s.
Definition strip (s : string) : string := lstrip (rstrip s).

(** [s.split()]: the maximal runs of non-whitespace characters; [tok] is
    the run being read. *)
Fixpoint split_go (s tok : string) : list string :=
  match s with
  | "" => if truthy tok then [tok] else []
  | String c r =>
      if is_space c
      then (if truthy tok then tok :: split_go r "" else split_go r "")
      else split_go r (tok +:+ of_char c)
  end.

Definition split (s : string) : list string := split_go s "".

(** [s.split(sep)] for a one-character separator. *)
Fixpoint split_sep (sep : ascii) (s : string) : list string :=
  match s with
  | "" => [""]
  | String c r =>
      if bool_decide (c = sep) then "" :: split_sep sep r
      else match split_sep sep r with
           | t :: ts => String c t :: ts
           | [] => [of_char c]
           end
  end.

(** [sep.join(parts)]. *)
Definition join (sep : string) (parts : list string) : string :=
  String.concat sep parts.

(** [l[i:j]] on lists, for [0 <= i <= j]. *)
Definition slice {A} (i j : nat) (l : list A) : list A :=
  list.take (j - i) (drop i l).

(** Iterating over an open file: the lines, each with its terminating
    newline (the last one possibly without). *)
Fixpoint lines_go (s cur : string) : list string :=
  match s with
  | "" => if truthy cur then [cur] else []
  | String c r =>
      if bool_decide (c = lf) then (cur +:+ of_char lf) :: lines_go r ""
      else lines_go r (cur +:+ of_char c)
  end.

Definition lines (s : string) : list string := lines_go s "".

(** The concatenation of a list of strings. *)
Definition concat (l : list string) : string := foldr String.append "" l.

Fixpoint forallb (p : ascii → bool) (s : string) : bool :=
  match s with
  | "" => true
  | String c r => p c && forallb p r
  end.

(** [repr(s)] of a [str], as Python 2 prints it for [%r]. *)
Definition hex_digit (n : N) : ascii :=
  match n with
  | 0 => "0" | 1 => "1" | 2 => "2" | 3 => "3" | 4 => "4" | 5 => "5"
  | 6 => "6" | 7 => "7" | 8 => "8" | 9 => "9" | 10 => "a" | 11 => "b"
  | 12 => "c" | 13 => "d" | 14 => "e" | _ => "f"
  end%N%char.

Fixpoint mem (c : ascii) (s : string) : bool :=
  match s with
  | "" => false
  | String d r => bool_decide (c = d) || mem c r
  end.

Definition repr_char (quote c : ascii) : string :=
  let n := N_of_ascii c in
  if bool_decide (c = quote) || bool_decide (c = "\"%char)
  then String "\" (of_char c)
  else if bool_decide (c = tab) then "\t"
  else if bool_decide (c = lf) then "\n"
  else if bool_decide (c = cr) then "\r"
  else if (n <? 32)%N || (127 <=? n)%N
  then String "\" (String "x" (String (hex_digit (n / 16)) (of_char (hex_digit (n mod 16)))))
  else of_char c.

Fixpoint repr_body (quote : ascii) (s : string) : string :=
  match s with
  | "" => ""
  | String c r => repr_char quote c +:+ repr_body quote r
  end.

Definition repr (s : string) : string :=
  let quote : ascii :=
    if mem squote s && negb (mem dquote s) then dquote else squote in
  of_char quote +:+ repr_body quote s +:+ of_char quote.

End Str.

(** The strings written "\n" and "\t" in the script. *)
Definition nl : string := Str.of_char Str.lf.
Definition ht : string := Str.of_char Str.tab.

(** ** Exceptions, effects and the state of a run *)

Inductive exn :=
| StopIteration
| ValueError (msg : string)
| IOError (path : string)
| AssertionError
| IndexError
| SystemExit (code : Z)
| LoopBound.
(* [LoopBound] is no Python exception: the model of [while True] returns it
   when its iteration bound is used up, which [split_fasta_terminates] below
   shows never happens. *)

Inductive res (A : Type) :=
| Ok (a : A)
| Raise (e : exn).
Arguments Ok {A} a.
Arguments Raise {A} e.

Inductive event :=
| EvOpenW (path : string)
| EvWrite (path data : string)
| EvRemove (path : string)
| EvSystem (cmd : string) (status : Z)
| EvStderr (msg : string).

Record world := World {
  fs : gmap string string;
  trace : list event
}.

Definition M (A : Type) : Type := world → res A * world.

#[global] Instance M_ret : MRet M := λ A a w, (Ok a, w).
#[global] Instance M_bind : MBind M := λ A B f c w,
  match c w with
  | (Ok a, w') => f a w'
  | (Raise e, w') => (Raise e, w')
  end.

Definition raise {A} (e : exn) : M A := λ w, (Raise e, w).

(** [open(path, "w")]: the file is created or emptied. *)
Definition open_w (path : string) : M unit := λ w,
  (Ok (), World (<[path := ""]> (fs w)) (trace w ++ [EvOpenW path])).

(** [handle.write(data)] on a handle opened on [path]. *)
Definition write (path data : string) : M unit := λ w,
  (Ok (), World (<[path := default "" (fs w !! path) +:+ data]> (fs w))
                (trace w ++ [EvWrite path data])).

(** [open(path)] followed by iteration over the lines. *)
Definition read_lines (path : string) : M (list string) := λ w,
  match fs w !! path with
  | Some c => (Ok (Str.lines c), w)
  | None => (Raise (IOError path), w)
  end.

Definition isfile (path : string) : M bool := λ w,
  (Ok (bool_decide (is_Some (fs w !! path))), w).

Definition remove (path : string) : M unit := λ w,
  (Ok (), World (delete path (fs w)) (trace w ++ [EvRemove path])).

Definition stderr_write (msg : string) : M unit := λ w,
  (Ok (), World (fs w) (trace w ++ [EvStderr msg])).

Definition stop_err {A} (msg : string) (error_level : Z) : M A :=
  stderr_write (msg +:+ nl);; raise (SystemExit error_level).

(** The status the process ends with: 0 at the end of the script, 1 for
    an exception that nothing catches, and for [sys.exit(c)] the low eight
    bits of [c], which is all the operating system keeps of it. *)
Definition exit_status {A} (r : res A) : Z :=
  match r with
  | Ok _ => 0
  | Raise (SystemExit c) => c mod 256
  | Raise _ => 1
  end.

Definition FASTA_CHUNK : Z := 500.
Definition TRUNCATE : Z := 60.

(** ** [fasta_iterator] *)

Definition record : Type := string * string.

(** A generator object: not yet started, suspended at a [yield] (with the
    lines still to read and the values [title] and [seq] have once it
    resumes), or finished. *)
Inductive gen :=
| GenNew (filename : string)
| GenLoop (rest : list string) (title seq : string)
| GenDone.

Fixpoint fasta_loop (lines : list string) (title seq : string) : res record * gen :=
  match lines with
  | [] =>
      if Str.truthy title then (Ok (title, seq), GenDone)
      else (Raise StopIteration, GenDone)
  | line :: rest =>
      if Str.startswith line ">" then
        if Str.truthy title
        then (Ok (title, seq), GenLoop rest (Str.rstrip (Str.tail line)) "")
        else fasta_loop rest (Str.rstrip (Str.tail line)) ""
      else if Str.truthy title then fasta_loop rest title (seq +:+ Str.strip line)
      else if negb (Str.truthy (Str.strip line)) || Str.startswith line "#"
      then fasta_loop rest title seq
      else (Raise (ValueError ("Bad FASTA line " +:+ Str.repr line)), GenDone)
  end.

(** [fasta_iterator(filename)]: calling a generator function runs none of
    its body, the file is opened by the first [next]. *)
Definition fasta_iterator (filename : string) : gen := GenNew filename.

(** [iterator.next()] *)
Definition next (it : gen) (w : world) : res record * gen :=
  match it with
  | GenNew filename =>
      match fs w !! filename with
      | Some c => fasta_loop (Str.lines c) "" ""
      | None => (Raise (IOError filename), GenDone)
      end
  | GenLoop rest title seq => fasta_loop rest title seq
  | GenDone => (Raise StopIteration, GenDone)
  end.

(** ** [split_fasta] *)

Definition fasta_entry (truncate : Z) (r : record) : string :=
  ">" +:+ r.1 +:+ nl +:+ Str.slice_to truncate r.2 +:+ nl.

Fixpoint write_records (path : string) (truncate : Z) (records : list record) : M unit :=
  match records with
  | [] => mret ()
  | r :: rest => write path (fasta_entry truncate r);; write_records path truncate rest
  end.

(** Writing one chunk: [open], one [write] per record, [close]. *)
Definition write_chunk (path : string) (truncate : Z) (records : list record) : M unit :=
  open_w path;; write_records path truncate records.

(** The [for i in range(n)] loop filling [records]. *)
Fixpoint draw (k : nat) (it : gen) (records : list record) (w : world)
  : res (list record) * gen :=
  match k with
  | 0 => (Ok records, it)
  | S k' =>
      match next it w with
      | (Ok r, it') => draw k' it' (records ++ [r]) w
      | (Raise StopIteration, it') => (Ok records, it')
      | (Raise e, it') => (Raise e, it')
      end
  end.

Definition chunk_name (filename : string) (i : nat) : string :=
  filename +:+ "." +:+ pretty i +:+ ".tmp".

Fixpoint split_loop (bound : nat) (filename : string) (n truncate : Z)
    (it : gen) (files : list string) : M (list string) := λ w,
  match bound with
  | 0 => (Raise LoopBound, w)
  | S bound' =>
      match draw (Z.to_nat n) it [] w with
      | (Raise e, _) => (Raise e, w)
      | (Ok [], _) => (Ok files, w)
      | (Ok records, it') =>
          let new_filename := chunk_name filename (length files) in
          (write_chunk new_filename truncate records;;
           split_loop bound' filename n truncate it' (files ++ [new_filename])) w
      end
  end.

(** Every [yield] leaves the generator strictly smaller. *)
Definition gen_size (it : gen) (w : world) : nat :=
  match it with
  | GenNew filename => S (S (length (Str.lines (default "" (fs w !! filename)))))
  | GenLoop rest _ _ => S (length rest)
  | GenDone => 0
  end.

Definition split_fasta (filename : string) (n truncate : Z) : M (list string) := λ w,
  let iterator := fasta_iterator filename in
  split_loop (S (gen_size iterator w)) filename n truncate iterator [] w.

(** ** [clean_tabular] *)

Inductive line_result :=
| Skip
| Emit (out : string)
| Raises (e : exn).

(** [line.rstrip("\r\n").split()] *)
Definition raw_fields (line : string) : list string :=
  Str.split (Str.rstrip_chars Str.is_crlf line).

(** [parts[i]] where the index is known to be in range. *)
Definition field (parts : list string) (i : nat) : string :=
  default "" (parts !! i).

(** [parts[14:15] + parts[1:14] + parts[15:]] *)
Definition reorder (parts : list string) : list string :=
  Str.slice 14 15 parts ++ Str.slice 1 14 parts ++ drop 15 parts.

(** The body of the loop of [clean_tabular] on one line. *)
Definition clean_tabular_line (line : string) : line_result :=
  if negb (Str.truthy line) || Str.startswith line "#" then Skip
  else
    let parts := raw_fields line in
    if negb (length parts =? 21)%nat then Raises AssertionError
    else match parts !! 14, parts !! 0 with
         | Some p14, Some p0 =>
             if negb (Str.startswith p14 p0) then Raises AssertionError
             else Emit (Str.join ht (reorder parts) +:+ nl)
         | _, _ => Raises IndexError
         end.

Fixpoint clean_tabular (raw : list string) (out : string) : M unit :=
  match raw with
  | [] => mret ()
  | line :: rest =>
      match clean_tabular_line line with
      | Skip => clean_tabular rest out
      | Emit s => write out s;; clean_tabular rest out
      | Raises e => raise e
      end
  end.

(** ** The script *)

Fixpoint clean_up (file_list : list string) : M unit :=
  match file_list with
  | [] => mret ()
  | f :: rest =>
      (b ← isfile f; if b : bool then remove f else mret ());;
      clean_up rest
  end.

Definition organisms : list string := ["euk"; "gram+"; "gram-"].

Definition fields : list string :=
  ["ID"]
  ++ flat_map (λ name, ["NN_" +:+ name +:+ "_score"; "NN_" +:+ name +:+ "_pos";
                        "NN_" +:+ name +:+ "_pred"]) ["Cmax"; "Ymax"; "Smax"]
  ++ ["NN_Smean_score"; "NN_Smean_pred"; "NN_D_score"; "NN_D_pred"]
  ++ ["HMM_type"; "HMM_Cmax_score"; "HMM_Cmax_pos"; "HMM_Cmax_pred";
      "HMM_Sprob_score"; "HMM_Sprob_pred"].

Definition header_line : string := "#" +:+ Str.join ht fields +:+ nl.

Definition command (organism fasta temp : string) : string :=
  "signalp -short -t " +:+ organism +:+ " " +:+ fasta +:+ " > " +:+ temp.

(** ["Failed with error level %i, %r" % (error_level, cmd)] *)
Definition failure_message (error_level : Z) (cmd : string) : string :=
  "Failed with error level " +:+ pretty error_level +:+ ", " +:+ Str.repr cmd.

Section Script.

(** [os.system]: the exit status of the command and what it did to the
    files. *)
Variable system : string → gmap string string → Z * gmap string string.

Definition os_system (cmd : string) : M Z := λ w,
  let '(status, fs') := system cmd (fs w) in
  (Ok status, World fs' (trace w ++ [EvSystem cmd status])).

(** The loop over [zip(fasta_files, temp_files)]. *)
Fixpoint run_jobs (organism : string) (jobs : list (string * string))
    (fasta_files temp_files : list string) : M unit :=
  match jobs with
  | [] => mret ()
  | (fasta, temp) :: rest =>
      let cmd := command organism fasta temp in
      error_level ← os_system cmd;
      if bool_decide (error_level ≠ 0%Z) then
        clean_up fasta_files;;
        clean_up temp_files;;
        stop_err (failure_message error_level cmd) error_level
      else run_jobs organism rest fasta_files temp_files
  end.

(** The loop over [temp_files] that fills the output table. *)
Fixpoint merge_files (temp_files : list string) (tabular_file : string) : M unit :=
  match temp_files with
  | [] => mret ()
  | temp :: rest =>
      raw ← read_lines temp;
      clean_tabular raw tabular_file;;
      merge_files rest tabular_file
  end.

Definition merge (temp_files : list string) (tabular_file : string) : M unit :=
  open_w tabular_file;;
  write tabular_file header_line;;
  merge_files temp_files tabular_file.

Definition main (argv : list string) : M unit :=
  match argv with
  | [_; organism; fasta_file; tabular_file] =>
      if bool_decide (organism ∈ organisms) then
        fasta_files ← split_fasta fasta_file FASTA_CHUNK TRUNCATE;
        let temp_files := (λ f, f +:+ ".out") <$> fasta_files in
        run_jobs organism (zip fasta_files temp_files) fasta_files temp_files;;
        merge temp_files tabular_file;;
        clean_up fasta_files;;
        clean_up temp_files
      else stop_err "Organism argument %s is not one of euk, gram+ or gram-" 1
  | _ => stop_err "Require three arguments, organism, input protein FASTA file & output tabular file" 1
  end.

End Script.

(** ** Notions used to state the properties *)

(** A data line breaks the schema of the raw output. *)
Definition schema_violation (line : string) : Prop :=
  length (raw_fields line) ≠ 21 ∨
  Str.startswith (field (raw_fields line) 14) (field (raw_fields line) 0) = false.

(** Iterating a generator to its end in the state [w]: the records it
    yields, in order, and the exception that ends the iteration
    ([StopIteration] when the input is read to its end). *)
Inductive drains (w : world) : gen → list record → exn → Prop :=
| drains_end it it' e :
    next it w = (Raise e, it') → drains w it [] e
| drains_yield it it' r rs e :
    next it w = (Ok r, it') → drains w it' rs e → drains w it (r :: rs) e.

Definition not_new (it : gen) : Prop :=
  match it with GenNew _ => False | _ => True end.

(** The text of a chunk file holding [records]. *)
Definition chunk_text (truncate : Z) (records : list record) : string :=
  foldr (λ r acc, fasta_entry truncate r +:+ acc) "" records.

(** The files opened for writing in a trace, in order. *)
Definition created (evs : list event) : list string :=
  omap (λ e, match e with EvOpenW p => Some p | _ => None end) evs.

Definition ceil_div (a b : nat) : nat := (a + b - 1) / b.

(** The [i]-th group of [c] consecutive elements of a list. *)
Definition nth_chunk {A} (c : nat) (l : list A) (i : nat) : list A :=
  take c (drop (i * c) l).

(** Events other than the run of a command. *)
Definition silent (e : event) : Prop :=
  match e with EvSystem _ _ => False | _ => True end.

(** A computation adds to the trace only events that satisfy [P], however
    it ends. *)
Definition emits (P : event → Prop) {A} (c : M A) : Prop :=
  ∀ w r w', c w = (r, w') → ∃ evs, trace w' = trace w ++ evs ∧ Forall P evs.

(** The lines [clean_tabular] writes for the lines [raw] of a result file
    when no assertion fails. *)
Definition normalized (raw : list string) : list string :=
  omap (λ line, match clean_tabular_line line with
                | Emit s => Some s
                | _ => None
                end) raw.

(** No assertion of [clean_tabular] fails on the line. *)
Definition passes (line : string) : Prop :=
  ∀ e, clean_tabular_line line ≠ Raises e.

(** The trace of jobs that all ended with status 0. *)
Definition ok_runs (organism : string) (jobs : list (string * string)) : list event :=
  (λ j, EvSystem (command organism j.1 j.2) 0) <$> jobs.

(** A line as the iteration over a file gives it: no newline but,
    possibly, at its end. *)
Definition line_shaped (l : string) : Prop :=
  ∃ body, Str.mem Str.lf body = false ∧ (l = body ∨ l = body +:+ nl).

(** A title as the generator yields it: not empty, on one line, without
    white space at its end. *)
Definition tidy_title (t : string) : Prop :=
  Str.truthy t = true ∧ Str.rstrip t = t ∧ Str.mem Str.lf t = false.

(** A character of a sequence written without white space and without
    the mark of a title line. *)
Definition residue (c : ascii) : bool :=
  Str.nonspace c && negb (bool_decide (c = ">"%char)).

Definition plain_seq (s : string) : Prop := Str.forallb residue s = true.

(** A record as [split_fasta] writes it. *)
Definition truncated (truncate : Z) (r : record) : record :=
  (r.1, Str.slice_to truncate r.2).

(** What the generator keeps between two [next]. *)
Definition gen_ok (it : gen) : Prop :=
  match it with
  | GenLoop rest title seq =>
      Forall line_shaped rest ∧
      Str.rstrip title = title ∧ Str.mem Str.lf title = false ∧
      Str.mem Str.lf seq = false
  | _ => True
  end.

(** An event that opens or writes a chunk file of the input [filename]. *)
Definition chunk_event (filename : string) (e : event) : Prop :=
  match e with
  | EvOpenW p | EvWrite p _ => ∃ i, p = chunk_name filename i
  | _ => False
  end.

(** [f + ".out"], the result file of a chunk file. *)
Definition out_name (f : string) : string := f +:+ ".out".

(** A field of a line of the table: not empty, without white space. *)
Definition cell (f : string) : Prop :=
  Str.truthy f = true ∧ Str.forallb Str.nonspace f = true.

(** A whole line that the generator passes over before the first title:
    blank, or a comment. *)
Definition ignorable (l : string) : Prop :=
  (∃ body, l = body +:+ nl ∧ Str.mem Str.lf body = false) ∧
  (Str.truthy (Str.strip l) = false ∨ Str.startswith l "#" = true).

(** Python's rule for [s[:t]], stated on lengths alone: how many
    characters of a string of length [len] the slice keeps. *)
Definition kept_length (t : Z) (len : nat) : nat :=
  Z.to_nat (if (0 <=? t)%Z then Z.min t (Z.of_nat len)
            else Z.max 0 (Z.of_nat len + t)).

(** [s'] is the sequence [s] cut at the truncate length [t]: the start of
    [s], of the length the rule gives. *)
Definition is_truncation (t : Z) (s s' : string) : Prop :=
  (∃ rest, s = s' +:+ rest) ∧
  String.length s' = kept_length t (String.length s).

(** [text] is the entry of the record [r] in a chunk file: the mark of a
    title line, the title, a newline, the truncated sequence, a newline. *)
Definition entry_of (t : Z) (r : record) (text : string) : Prop :=
  ∃ s', is_truncation t r.2 s' ∧ text = ">" +:+ r.1 +:+ nl +:+ s' +:+ nl.

(** [content] is made of the entries of the records of [group], one after
    the other and nothing else. *)
Definition holds_records (t : Z) (group : list record) (content : string) : Prop :=
  ∃ texts, Forall2 (entry_of t) group texts ∧ content = Str.concat texts.

(** ** Sample data *)

(** The first data line of the raw output quoted in the script. *)
Definition sample_raw_line : string :=
  "gi|2781234|pdb|1JLY|  0.061  17 N  0.043  17 N  0.199   1 N  0.067 N  0.055 N"
  +:+ ht +:+ "gi|2781234|pdb|1JLY|B  Q  0.000  17 N  0.000 N  " +:+ nl.

(** The same line with its last column missing. *)
Definition sample_short_line : string :=
  "gi|2781234|pdb|1JLY|  0.061  17 N  0.043  17 N  0.199   1 N  0.067 N  0.055 N"
  +:+ ht +:+ "gi|2781234|pdb|1JLY|B  Q  0.000  17 N  0.000" +:+ nl.

Definition sample_comment_line : string :=
  "# SignalP-NN euk predictions" +:+ nl.

(** A FASTA file of three records, in a directory with nothing else. *)
Definition sample_fasta : string :=
  ">s1 first" +:+ nl +:+ "MKVLAAGIVG" +:+ nl +:+ "LLLA" +:+ nl +:+
  ">s2" +:+ nl +:+ "MK" +:+ nl +:+
  ">s3" +:+ nl +:+ "MSTAV" +:+ nl.

Definition sample_records : list record :=
  [("s1 first", "MKVLAAGIVGLLLA"); ("s2", "MK"); ("s3", "MSTAV")].

Definition sample_world : world := World {["in.fa" := sample_fasta]} [].

(** A result file as the tool writes it: a comment line and a data line. *)
Definition sample_result : string := sample_comment_line +:+ sample_raw_line.

Definition sample_results_world : world :=
  World {["in.fa.0.tmp.out" := sample_result]} [].

(** An input without any record. *)
Definition sample_empty_world : world :=
  World {["empty.fa" := "# no sequences" +:+ nl +:+ nl]} [].

Definition sample_argv : list string := ["signalp3.py"; "euk"; "in.fa"; "out.tab"].

(** A tool that writes the sample result for the first chunk and ends
    with status 0. *)
Definition sample_system : string → gmap string string → Z * gmap string string :=
  λ _ files, (0%Z, <["in.fa.0.tmp.out" := sample_result]> files).

(** A tool that fails at once and touches no file. *)
Definition failing_system : string → gmap string string → Z * gmap string string :=
  λ _ files, (256%Z, files).

(** An input with a record, then a title line without a title followed by
    a line of residues. *)
Definition sample_bad_fasta : string :=
  ">s1" +:+ nl +:+ "MKV" +:+ nl +:+ ">" +:+ nl +:+ "XYZ" +:+ nl.

Definition sample_bad_world : world := World {["bad.fa" := sample_bad_fasta]} [].

Definition sample_bad_line_error : exn := ValueError "Bad FASTA line 'XYZ\n'".

(** * Facts about the string primitives *)

Module StrFacts.
Import Str.

Lemma str_app_cons c s t : String c s +:+ t = String c (s +:+ t).
Proof. reflexivity. Qed.

Lemma str_app_nil_l s : "" +:+ s = s.
Proof. reflexivity. Qed.

Lemma str_app_nil_r s : s +:+ "" = s.
Proof. induction s as [|c s IH]; [done|]. by rewrite str_app_cons, IH. Qed.

Lemma str_app_assoc s t u : s +:+ (t +:+ u) = (s +:+ t) +:+ u.
Proof. induction s as [|c s IH]; [done|]. by rewrite !str_app_cons, IH. Qed.

Lemma str_length_app s t :
  String.length (s +:+ t) = (String.length s + String.length t)%nat.
Proof. induction s as [|c s IH]; [done|]. rewrite str_app_cons. simpl. by rewrite IH. Qed.

Lemma str_app_inj_r s t u : s +:+ u = t +:+ u → s = t.
Proof.
  revert t. induction s as [|c s IH]; intros [|d t] H; [done| | |].
  - apply (f_equal String.length) in H. rewrite str_app_cons, str_app_nil_l in H.
    simpl in H. rewrite str_length_app in H. lia.
  - apply (f_equal String.length) in H. rewrite str_app_cons, str_app_nil_l in H.
    simpl in H. rewrite str_length_app in H. lia.
  - rewrite !str_app_cons in H. injection H as -> H. f_equal. by apply IH.
Qed.

Lemma str_forallb_app p s t : forallb p (s +:+ t) = forallb p s && forallb p t.
Proof.
  induction s as [|c s IH]; [done|].
  rewrite str_app_cons. simpl. rewrite IH. by rewrite andb_assoc.
Qed.

Lemma str_concat_app l1 l2 : concat (l1 ++ l2) = concat l1 +:+ concat l2.
Proof.
  induction l1 as [|x l1 IH]; [done|].
  cbn [app concat foldr]. fold (concat (l1 ++ l2)). fold (concat l1).
  by rewrite IH, str_app_assoc.
Qed.

Lemma str_take_length (n : nat) s :
  String.length (take_chars n s) = (n `min` String.length s)%nat.
Proof.
  revert s. induction n as [|n IH]; intros [|c s]; simpl; try done.
  by rewrite IH.
Qed.

Lemma str_take_all (n : nat) s : (String.length s ≤ n)%nat → take_chars n s = s.
Proof.
  revert s. induction n as [|n IH]; intros [|c s]; simpl; intros H; try done; try lia.
  f_equal. apply IH. lia.
Qed.

Lemma str_take_prefix n s : ∃ r, s = take_chars n s +:+ r.
Proof.
  revert s. induction n as [|n IH]; intros [|c s]; simpl; try by eexists.
  destruct (IH s) as [r Hr]. exists r. by rewrite str_app_cons, <- Hr.
Qed.

Lemma split_go_tokens s tok :
  forallb nonspace tok = true →
  Forall (λ t, forallb nonspace t = true) (split_go s tok).
Proof.
  revert tok. induction s as [|c s IH]; intros tok Htok; simpl.
  - destruct (truthy tok); by repeat constructor.
  - destruct (is_space c) eqn:Hc.
    + destruct (truthy tok); [constructor; [done|]|]; by apply IH.
    + apply IH. rewrite str_forallb_app, Htok. simpl.
      unfold nonspace. by rewrite Hc.
Qed.

Lemma split_tokens s : Forall (λ t, forallb nonspace t = true) (split s).
Proof. by apply split_go_tokens. Qed.

Lemma nonspace_mem c t :
  is_space c = true → forallb nonspace t = true → mem c t = false.
Proof.
  intros Hc. induction t as [|d t IH]; [done|]. simpl.
  intros [Hd Ht]%andb_prop. rewrite (IH Ht), orb_false_r.
  apply bool_decide_eq_false. intros ->. unfold nonspace in Hd.
  by rewrite Hc in Hd.
Qed.

Lemma split_sep_app sep t r :
  mem sep t = false →
  split_sep sep (t +:+ r) = (t +:+ hd "" (split_sep sep r)) :: tl (split_sep sep r).
Proof.
  induction t as [|c t IH]; simpl.
  - intros _. rewrite str_app_nil_l. destruct r as [|d r]; [done|]. simpl.
    case_bool_decide; [done|]. by destruct (split_sep sep r).
  - intros [Hc Ht]%orb_false_elim. apply bool_decide_eq_false in Hc.
    rewrite str_app_cons. simpl. rewrite bool_decide_eq_false_2 by congruence.
    by rewrite (IH Ht).
Qed.

Lemma split_sep_join sep parts :
  parts ≠ [] →
  Forall (λ t, mem sep t = false) parts →
  split_sep sep (join (of_char sep) parts) = parts.
Proof.
  induction parts as [|x parts IH]; [done|]. intros _ Hall.
  apply Forall_cons in Hall as [Hx Hall].
  destruct parts as [|y parts].
  - simpl. rewrite <- (str_app_nil_r x) at 1. rewrite (split_sep_app _ _ _ Hx).
    simpl. by rewrite str_app_nil_r.
  - change (join (of_char sep) (x :: y :: parts))
      with (x +:+ (String sep (join (of_char sep) (y :: parts)))).
    rewrite (split_sep_app _ _ _ Hx). simpl.
    rewrite bool_decide_eq_true_2 by done. simpl.
    rewrite str_app_nil_r. f_equal. by apply IH.
Qed.

Example split_example :
  split (" a  b" +:+ of_char tab +:+ "c " +:+ of_char lf) = ["a"; "b"; "c"].
Proof. reflexivity. Qed.

Example lines_example :
  lines ("a" +:+ of_char lf +:+ of_char lf +:+ "b")
  = ["a" +:+ of_char lf; of_char lf; "b"].
Proof. reflexivity. Qed.

Example rstrip_example : rstrip ("a b " +:+ of_char lf) = "a b".
Proof. reflexivity. Qed.

Example slice_to_negative : slice_to (-2) "MKVLA" = "MKV".
Proof. reflexivity. Qed.

Example repr_example : repr ("it's" +:+ of_char tab) = String dquote "it's\t" +:+ of_char dquote.
Proof. reflexivity. Qed.

End StrFacts.

(** * The normaliser, [clean_tabular] *)

Section Normaliser.
Import Str StrFacts.

Ltac list_of_length_21 parts H :=
  do 21 (destruct parts as [|? parts]; [discriminate H|]);
  destruct parts; [clear H|discriminate H].

Lemma clean_tabular_line_data line :
  truthy line = true → startswith line "#" = false →
  clean_tabular_line line =
    if negb (length (raw_fields line) =? 21)%nat then Raises AssertionError
    else if negb (startswith (field (raw_fields line) 14) (field (raw_fields line) 0))
         then Raises AssertionError
         else Emit (join ht (reorder (raw_fields line)) +:+ nl).
Proof.
  intros Hne Hc. unfold clean_tabular_line. rewrite Hne, Hc. simpl.
  destruct (length (raw_fields line) =? 21)%nat eqn:Hlen; [|done]. simpl.
  apply Nat.eqb_eq in Hlen. remember (raw_fields line) as parts eqn:E. clear E.
  list_of_length_21 parts Hlen. reflexivity.
Qed.

Lemma raw_fields_empty : raw_fields "" = [].
Proof. reflexivity. Qed.

Lemma raw_fields_no_tab line :
  Forall (λ t, mem tab t = false) (raw_fields line).
Proof.
  eapply Forall_impl; [apply split_tokens|].
  intros t Ht. by apply nonspace_mem.
Qed.

(** C3: for a line that is not skipped, the assertions of [clean_tabular]
    fail (AssertionError, the schema violation) exactly when the number of
    whitespace-separated fields is not 21 or field 14 does not start with
    field 0. In that case nothing is written for the line and the loop
    stops; otherwise the reordered line is written and the loop goes on. *)
Theorem clean_tabular_schema_check line :
  truthy line = true → startswith line "#" = false →
  (schema_violation line ↔ clean_tabular_line line = Raises AssertionError) ∧
  (schema_violation line →
     ∀ rest out w, clean_tabular (line :: rest) out w = (Raise AssertionError, w)) ∧
  (¬ schema_violation line →
     clean_tabular_line line = Emit (join ht (reorder (raw_fields line)) +:+ nl) ∧
     ∀ rest out w,
       clean_tabular (line :: rest) out w =
       (write out (join ht (reorder (raw_fields line)) +:+ nl);;
        clean_tabular rest out) w).
Proof.
  intros Hne Hc. pose proof (clean_tabular_line_data line Hne Hc) as Hd.
  unfold schema_violation.
  destruct (length (raw_fields line) =? 21)%nat eqn:Hlen; simpl in Hd.
  - apply Nat.eqb_eq in Hlen.
    destruct (startswith (field (raw_fields line) 14) (field (raw_fields line) 0)) eqn:Hp;
      simpl in Hd.
    + split; [|split].
      * split; [intros [?|?]; [lia|done] | rewrite Hd; done].
      * intros [?|?]; [lia|done].
      * intros _. split; [done|]. intros rest out w. simpl. by rewrite Hd.
    + split; [|split].
      * split; [done | by right].
      * intros _ rest out w. simpl. by rewrite Hd.
      * intros Hn. destruct Hn. by right.
  - apply Nat.eqb_neq in Hlen. split; [|split].
    + split; [done | by left].
    + intros _ rest out w. simpl. by rewrite Hd.
    + intros Hn. destruct Hn. by left.
Qed.

Lemma clean_tabular_schema_check_witness :
  clean_tabular_line sample_short_line = Raises AssertionError.
Proof.
  apply (proj1 (clean_tabular_schema_check sample_short_line eq_refl eq_refl)).
  left. vm_compute. lia.
Defined.

(** C2, as the code has it: a line of 21 whitespace-separated fields that is
    no comment and whose field 14 starts with field 0 is written as 20
    tab-separated fields and a newline: field 14 (the full identifier)
    first, then fields 1 to 13 (the NN columns), then the six fields 15 to
    20 (the HMM columns). *)
Theorem clean_tabular_line_fields line :
  startswith line "#" = false →
  length (raw_fields line) = 21 →
  startswith (field (raw_fields line) 14) (field (raw_fields line) 0) = true →
  let out := join ht (reorder (raw_fields line)) in
  clean_tabular_line line = Emit (out +:+ nl) ∧
  length (split_sep tab out) = 20 ∧
  split_sep tab out !! 0 = raw_fields line !! 14 ∧
  slice 1 14 (split_sep tab out) = slice 1 14 (raw_fields line) ∧
  drop 14 (split_sep tab out) = drop 15 (raw_fields line) ∧
  length (drop 14 (split_sep tab out)) = 6.
Proof.
  intros Hc Hlen Hp out.
  assert (truthy line = true) as Hne.
  { destruct line; [|done]. by rewrite raw_fields_empty in Hlen. }
  assert (split_sep tab out = reorder (raw_fields line)) as Hsplit.
  { apply split_sep_join.
    - intros E. apply (f_equal length) in E. revert E. unfold reorder, slice.
      rewrite !length_app, !length_take, !length_drop. simpl. lia.
    - unfold reorder, slice. pose proof (raw_fields_no_tab line) as Hall.
      repeat apply Forall_app_2;
        repeat first [apply Forall_take | apply Forall_drop]; done. }
  split.
  { rewrite (clean_tabular_line_data line Hne Hc), Hp.
    apply Nat.eqb_eq in Hlen. by rewrite Hlen. }
  rewrite Hsplit. clear Hsplit out Hp Hne Hc.
  remember (raw_fields line) as parts eqn:E. clear E.
  list_of_length_21 parts Hlen. by repeat split.
Qed.

Lemma clean_tabular_line_fields_witness :
  length (split_sep tab (join ht (reorder (raw_fields sample_raw_line)))) = 20.
Proof.
  refine (proj1 (proj2 (clean_tabular_line_fields sample_raw_line _ _ _)));
    vm_compute; reflexivity.
Defined.

(** C2 as stated fails: the sample data line of the script has 21 fields,
    its field 14 starts with its field 0, and it is written with 20
    tab-separated fields, not 19. *)
Lemma clean_tabular_line_not_19_fields :
  startswith sample_raw_line "#" = false ∧
  length (raw_fields sample_raw_line) = 21 ∧
  startswith (field (raw_fields sample_raw_line) 14)
             (field (raw_fields sample_raw_line) 0) = true ∧
  clean_tabular_line sample_raw_line
    = Emit (join ht (reorder (raw_fields sample_raw_line)) +:+ nl) ∧
  length (split_sep tab (join ht (reorder (raw_fields sample_raw_line)))) ≠ 19.
Proof. vm_compute. repeat split; try reflexivity. lia. Qed.

End Normaliser.

(** * Truncation *)



(** * The generator and the splitter *)

Section Splitter.

Lemma fasta_loop_not_new lines title seq x it' :
  fasta_loop lines title seq = (x, it') → not_new it'.
Proof.
  revert title seq. induction lines as [|line rest IH]; intros title seq; simpl.
  - destruct (Str.truthy title); by intros [= <- <-].
  - repeat case_match; try (by intros [= <- <-]); apply IH.
Qed.

Lemma fasta_loop_raise lines title seq e it' :
  fasta_loop lines title seq = (Raise e, it') → it' = GenDone.
Proof.
  revert title seq. induction lines as [|line rest IH]; intros title seq; simpl.
  - destruct (Str.truthy title); by intros [= <- <-].
  - repeat case_match; try (by intros [= <- <-]); try done; apply IH.
Qed.

Example fasta_bad_line :
  next (fasta_iterator "bad.fa") (World {["bad.fa" := "MKV" +:+ nl +:+ ">s1" +:+ nl]} [])
  = (Raise (ValueError ("Bad FASTA line 'MKV\n'")), GenDone).
Proof. reflexivity. Qed.

Example fasta_no_file :
  next (fasta_iterator "in.fa") (World ∅ []) = (Raise (IOError "in.fa"), GenDone).
Proof. reflexivity. Qed.

Example fasta_leading_comments :
  next (fasta_iterator "c.fa")
       (World {["c.fa" := "# made by hand" +:+ nl +:+ nl +:+ ">s1 " +:+ nl +:+ " MK V " +:+ nl
                          +:+ "LA" +:+ nl]} [])
  = (Ok ("s1", "MK VLA"), GenDone).
Proof. reflexivity. Qed.

Lemma next_not_new it w x it' : next it w = (x, it') → not_new it'.
Proof.
  destruct it as [f|rest title seq|]; simpl.
  - destruct (fs w !! f); [apply fasta_loop_not_new | by intros [= <- <-]].
  - apply fasta_loop_not_new.
  - by intros [= <- <-].
Qed.

Lemma next_raise it w e it' : next it w = (Raise e, it') → it' = GenDone.
Proof.
  destruct it as [f|rest title seq|]; simpl.
  - destruct (fs w !! f); [apply fasta_loop_raise | by intros [= <- <-]].
  - apply fasta_loop_raise.
  - by intros [= <- <-].
Qed.

Lemma next_world it w w' : not_new it → next it w' = next it w.
Proof. by destruct it. Qed.

Lemma drains_world w w' it recs e :
  not_new it → drains w it recs e → drains w' it recs e.
Proof.
  intros Hn H. induction H as [it it' e H | it it' r rs e H Hd IH].
  - eapply drains_end. by rewrite (next_world _ w).
  - eapply drains_yield; [by rewrite (next_world _ w)|].
    apply IH. by eapply next_not_new.
Qed.

Lemma drains_done w : drains w GenDone [] StopIteration.
Proof. by eapply drains_end. Qed.

(** One pass of the [for] loop takes the next [k] records. *)
Lemma draw_drains k it acc w recs :
  drains w it recs StopIteration →
  ∃ it', draw k it acc w = (Ok (acc ++ take k recs), it') ∧
         (k = 0 → it' = it) ∧
         (0 < k → ∀ w', drains w' it' (drop k recs) StopIteration).
Proof.
  revert it acc recs. induction k as [|k IH]; intros it acc recs Hd.
  - exists it. simpl. rewrite app_nil_r. split; [done|]. split; [done|lia].
  - inversion Hd as [? it1 ? Hn | ? it1 r rs ? Hn Hrs]; subst; simpl; rewrite Hn.
    + exists it1. rewrite app_nil_r. split; [done|]. split; [done|].
      intros _ w'. apply next_raise in Hn as ->. apply drains_done.
    + destruct (IH it1 (acc ++ [r]) rs Hrs) as (it' & Hdraw & H0 & Hpos).
      exists it'. rewrite Hdraw, <- app_assoc. split; [done|]. split; [done|].
      intros _ w'. destruct k as [|k].
      * rewrite (H0 eq_refl). simpl. rewrite drop_0.
        eapply drains_world; [by eapply next_not_new | done].
      * apply Hpos. lia.
Qed.

Lemma bind_run {A B} (c : M A) (f : A → M B) w :
  (c ≫= f) w = match c w with
               | (Ok a, w') => f a w'
               | (Raise e, w') => (Raise e, w')
               end.
Proof. reflexivity. Qed.

Lemma world_eta w : World (fs w) (trace w) = w.
Proof. by destruct w. Qed.

Lemma write_records_spec path T records w c :
  fs w !! path = Some c →
  write_records path T records w =
    (Ok (), World (<[path := c +:+ chunk_text T records]> (fs w))
                  (trace w ++ (EvWrite path ∘ fasta_entry T <$> records))).
Proof.
  revert w c. induction records as [|r rest IH]; intros w c Hc; simpl.
  - rewrite StrFacts.str_app_nil_r, app_nil_r, insert_id by done.
    by rewrite world_eta.
  - rewrite bind_run. unfold write at 1. rewrite Hc. simpl.
    erewrite IH by apply lookup_insert_eq. simpl.
    by rewrite insert_insert_eq, <- app_assoc, StrFacts.str_app_assoc.
Qed.

Lemma write_chunk_spec path T records w :
  write_chunk path T records w =
    (Ok (), World (<[path := chunk_text T records]> (fs w))
                  (trace w ++ EvOpenW path :: (EvWrite path ∘ fasta_entry T <$> records))).
Proof.
  unfold write_chunk. rewrite bind_run. unfold open_w at 1.
  erewrite write_records_spec by apply lookup_insert_eq. simpl.
  by rewrite insert_insert_eq, <- app_assoc.
Qed.

Lemma created_app evs1 evs2 : created (evs1 ++ evs2) = created evs1 ++ created evs2.
Proof. apply omap_app. Qed.

Lemma created_writes {A} path (f : A → string) (l : list A) :
  created (EvWrite path ∘ f <$> l) = [].
Proof. by induction l. Qed.

Lemma chunk_name_inj filename i j :
  chunk_name filename i = chunk_name filename j → i = j.
Proof.
  unfold chunk_name. intros H.
  apply (inj (String.app filename)) in H. apply (inj (String.app ".")) in H.
  apply StrFacts.str_app_inj_r in H. by apply (inj pretty) in H.
Qed.

Lemma ceil_div_0 C : 0 < C → ceil_div 0 C = 0.
Proof. intros H. unfold ceil_div. apply Nat.div_small. lia. Qed.

Lemma ceil_div_step N C :
  0 < C → 0 < N → ceil_div N C = S (ceil_div (N - C) C).
Proof.
  intros HC HN. unfold ceil_div. destruct (decide (N ≤ C)) as [Hle|Hgt].
  - replace (N - C + C - 1) with (C - 1) by lia.
    rewrite (Nat.div_small (C - 1)) by lia.
    symmetry. apply (Nat.div_unique _ _ _ (N - 1)); lia.
  - replace (N + C - 1) with ((N - C + C - 1) + 1 * C) by lia.
    rewrite Nat.div_add by lia. lia.
Qed.

Lemma ceil_div_pos N C : 0 < C → ceil_div N C = 0 → N = 0.
Proof.
  intros HC H. destruct N as [|N]; [done|].
  rewrite ceil_div_step in H by lia. done.
Qed.

Lemma ceil_div_bounds N C :
  0 < C → 0 < N → (ceil_div N C - 1) * C < N ∧ N ≤ ceil_div N C * C.
Proof.
  intros HC HN. unfold ceil_div.
  pose proof (Nat.div_mod_eq (N + C - 1) C) as E.
  pose proof (Nat.mod_upper_bound (N + C - 1) C) as U.
  remember ((N + C - 1) / C) as q. remember ((N + C - 1) mod C) as r.
  assert (1 ≤ q) by (destruct q; [nia|lia]). nia.
Qed.

Lemma ceil_div_le N C : 0 < C → ceil_div N C ≤ N.
Proof.
  intros HC. destruct N as [|N]; [by rewrite ceil_div_0|].
  pose proof (ceil_div_bounds (S N) C HC) as [H _]; [lia|]. nia.
Qed.

(** The loop of [split_fasta], on an input that is read to its end. *)
Lemma split_loop_result filename n T (Hn : (0 < n)%Z) m :
  ∀ bound it files w recs,
    drains w it recs StopIteration →
    m = ceil_div (length recs) (Z.to_nat n) →
    m < bound →
    ∃ w', split_loop bound filename n T it files w
            = (Ok (files ++ (chunk_name filename <$> seq (length files) m)), w') ∧
          created (trace w')
            = created (trace w) ++ (chunk_name filename <$> seq (length files) m) ∧
          (∀ i, i < m →
             fs w' !! chunk_name filename (length files + i)
             = Some (chunk_text T (nth_chunk (Z.to_nat n) recs i))) ∧
          (∀ p, (∀ i, i < m → p ≠ chunk_name filename (length files + i)) →
             fs w' !! p = fs w !! p).
Proof.
  unfold nth_chunk.
  assert (0 < Z.to_nat n) as HC by lia. remember (Z.to_nat n) as C eqn:EC.
  induction m as [|m IH]; intros bound it files w recs Hd Hm Hb;
    (destruct bound as [|bound]; [lia|]); simpl; rewrite <- EC;
    destruct (draw_drains C it [] w recs Hd) as (it' & Hdraw & _ & Hrest);
    rewrite Hdraw; simpl.
  - symmetry in Hm. apply ceil_div_pos in Hm; [|done].
    destruct recs; [|done]. rewrite take_nil. exists w.
    simpl. rewrite !app_nil_r. split; [done|]. split; [done|].
    split; [intros; lia | done].
  - destruct recs as [|r0 recs]; [by rewrite ceil_div_0 in Hm|].
    destruct C as [|c]; [lia|]. simpl take.
    rewrite bind_run, write_chunk_spec.
    set (name := chunk_name filename (length files)).
    set (w1 := World _ _).
    destruct (IH bound it' (files ++ [name]) w1 (drop (S c) (r0 :: recs)))
      as (w' & Hloop & Hcr & Hfiles & Hframe).
    { apply Hrest. lia. }
    { rewrite ceil_div_step in Hm by (simpl; lia).
      rewrite length_drop. by injection Hm. }
    { lia. }
    rewrite length_app in Hloop, Hcr, Hfiles, Hframe. simpl in Hloop, Hcr, Hfiles, Hframe.
    rewrite Nat.add_1_r in Hloop, Hcr, Hfiles, Hframe.
    exists w'. split; [|split; [|split]].
    + rewrite Hloop. by rewrite <- app_assoc.
    + rewrite Hcr. subst w1. simpl trace.
      rewrite created_app. simpl. by rewrite created_writes, <- app_assoc.
    + intros [|i] Hi.
      * rewrite Nat.add_0_r, Hframe.
        -- subst w1. simpl. by rewrite lookup_insert_eq.
        -- intros i _ E. apply chunk_name_inj in E. lia.
      * replace (length files + S i) with (S (length files) + i) by lia.
        rewrite Hfiles by lia. rewrite drop_drop. repeat f_equal; lia.
    + intros p Hp. rewrite Hframe.
      * subst w1. simpl. apply lookup_insert_ne.
        intros E. apply (Hp 0); [lia|]. by rewrite Nat.add_0_r.
      * intros i Hi. replace (S (length files) + i) with (length files + S i) by lia.
        apply Hp. lia.
Qed.

(** *** The iteration bound of [split_loop] is never reached *)

Lemma fasta_loop_size lines title seq r it' w' :
  fasta_loop lines title seq = (Ok r, it') → gen_size it' w' ≤ length lines.
Proof.
  revert title seq. induction lines as [|line rest IH]; intros title seq; simpl.
  - destruct (Str.truthy title); intros [= <- <-]; simpl; lia.
  - repeat case_match; try (intros [= <- <-]; simpl; lia); try done;
      intros Hrec; apply IH in Hrec; lia.
Qed.

Lemma next_size it w r it' w' :
  next it w = (Ok r, it') → gen_size it' w' < gen_size it w.
Proof.
  destruct it as [f|rest title seq|]; simpl; [|intros H|done].
  - destruct (fs w !! f) as [c|]; [|done]. simpl.
    intros H. apply (fasta_loop_size _ _ _ _ _ w') in H. lia.
  - apply (fasta_loop_size _ _ _ _ _ w') in H. lia.
Qed.

Lemma gen_size_world it w w' : not_new it → gen_size it w' = gen_size it w.
Proof. by destruct it. Qed.

Lemma drains_length w it recs e :
  drains w it recs e → length recs ≤ gen_size it w.
Proof.
  induction 1 as [it it' e H | it it' r rs e H Hd IH]; simpl; [lia|].
  apply (next_size _ _ _ _ w) in H. lia.
Qed.

Lemma fasta_loop_exn lines title seq e it' :
  fasta_loop lines title seq = (Raise e, it') → e ≠ LoopBound.
Proof.
  revert title seq. induction lines as [|line rest IH]; intros title seq; simpl.
  - destruct (Str.truthy title); by intros [= <- <-].
  - repeat case_match; try (by intros [= <- <-]); try done; apply IH.
Qed.

Lemma next_exn it w e it' : next it w = (Raise e, it') → e ≠ LoopBound.
Proof.
  destruct it as [f|rest title seq|]; simpl.
  - destruct (fs w !! f); [apply fasta_loop_exn | by intros [= <- <-]].
  - apply fasta_loop_exn.
  - by intros [= <- <-].
Qed.

Lemma draw_result k it acc w x it' :
  draw k it acc w = (x, it') →
  match x with
  | Ok records =>
      (records = acc ∧ (it' = it ∨ it' = GenDone)) ∨
      (not_new it' ∧ gen_size it' w < gen_size it w)
  | Raise e => e ≠ LoopBound
  end.
Proof.
  revert it acc. induction k as [|k IH]; intros it acc; simpl.
  - intros [= <- <-]. left. auto.
  - destruct (next it w) as [[r|e] it1] eqn:Hn.
    + intros H. pose proof (next_size _ _ _ _ w Hn) as Hs.
      pose proof (next_not_new _ _ _ _ Hn) as Hnew.
      apply IH in H. destruct x as [records|e]; [|done]. right.
      destruct H as [[_ [-> | ->]] | [H1 H2]]; simpl; try done; split; try done; lia.
    + assert (e ≠ LoopBound) by (by eapply next_exn).
      apply next_raise in Hn as ->.
      destruct e; intros [= <- <-]; try done. left. auto.
Qed.

Lemma split_loop_terminates filename n T bound :
  ∀ it files w r w',
    gen_size it w < bound →
    split_loop bound filename n T it files w = (r, w') →
    r ≠ Raise LoopBound.
Proof.
  induction bound as [|bound IH]; intros it files w r w' Hb; [lia|]. simpl.
  destruct (draw (Z.to_nat n) it [] w) as [[records|e] it'] eqn:Hdraw;
    apply draw_result in Hdraw.
  - destruct records as [|r0 records]; [by intros [= <- <-]|].
    destruct Hdraw as [[? _] | [Hnew Hs]]; [done|].
    rewrite bind_run, write_chunk_spec. apply IH.
    rewrite (gen_size_world _ w) by done. lia.
  - intros [= <- <-]. congruence.
Qed.

(** [split_fasta] always comes to an end: the bound is for the model only. *)
Lemma split_fasta_terminates filename n T w r w' :
  split_fasta filename n T w = (r, w') → r ≠ Raise LoopBound.
Proof. apply split_loop_terminates. lia. Qed.

Lemma concat_chunks {A} (c : nat) (Hc : 0 < c) m :
  ∀ l : list A, m = ceil_div (length l) c →
    concat (nth_chunk c l <$> seq 0 m) = l.
Proof.
  unfold nth_chunk. induction m as [|m IH]; intros l Hm.
  - symmetry in Hm. apply ceil_div_pos in Hm; [|done]. by destruct l.
  - destruct (decide (length l = 0)) as [E|E].
    { rewrite E, ceil_div_0 in Hm; done. }
    rewrite ceil_div_step in Hm by lia. injection Hm as Hm.
    rewrite <- length_drop in Hm. apply IH in Hm.
    simpl. rewrite <- fmap_S_seq, <- list_fmap_compose.
    rewrite drop_0. etrans; [|apply (take_drop c l)]. f_equal.
    etrans; [|apply Hm]. f_equal. apply list_fmap_ext. intros _ i _. simpl.
    rewrite drop_drop. done.
Qed.

Lemma nth_chunk_length {A} (c : nat) (l : list A) i :
  0 < c → 0 < length l →
  (i < ceil_div (length l) c - 1 → length (nth_chunk c l i) = c) ∧
  (i = ceil_div (length l) c - 1 → 1 ≤ length (nth_chunk c l i) ≤ c).
Proof.
  intros Hc Hl. unfold nth_chunk. rewrite length_take, length_drop.
  pose proof (ceil_div_bounds (length l) c Hc Hl) as [H1 H2].
  split; intros Hi; [|subst i; lia].
  assert ((i + 1) * c ≤ (ceil_div (length l) c - 1) * c) by (apply Nat.mul_le_mono_r; lia).
  lia.
Qed.

Lemma slice_to_prefix T s : ∃ rest, s = Str.slice_to T s +:+ rest.
Proof. unfold Str.slice_to. case_match; apply StrFacts.str_take_prefix. Qed.

End Splitter.

Lemma sample_drains :
  drains sample_world (fasta_iterator "in.fa") sample_records StopIteration.
Proof.
  repeat (eapply drains_yield; [reflexivity|]).
  eapply drains_end. reflexivity.
Qed.

(** * Effects of the parts of the script *)

Section Effects.

Context {P : event → Prop}.

Lemma emits_ret {A} (a : A) : emits P (mret a).
Proof. intros w r w' [= <- <-]. exists []. by rewrite app_nil_r. Qed.

Lemma emits_raise {A} e : emits P (raise (A:=A) e).
Proof. intros w r w' [= <- <-]. exists []. by rewrite app_nil_r. Qed.

Lemma emits_bind {A B} (c : M A) (f : A → M B) :
  emits P c → (∀ a, emits P (f a)) → emits P (c ≫= f).
Proof.
  intros Hc Hf w r w'. rewrite bind_run.
  destruct (c w) as [[a|e] w1] eqn:E; apply Hc in E as (evs1 & E1 & H1).
  - intros (evs2 & E2 & H2)%Hf. exists (evs1 ++ evs2).
    rewrite E2, E1, app_assoc. split; [done|]. by apply Forall_app.
  - intros [= <- <-]. by exists evs1.
Qed.

Lemma emits_event {A} (c : M A) ev :
  P ev → (∀ w, ∃ r fs', c w = (r, World fs' (trace w ++ [ev]))) → emits P c.
Proof.
  intros Hev Hc w r w' E. destruct (Hc w) as (r' & fs' & E').
  rewrite E' in E. injection E as <- <-. exists [ev]. split; [done|].
  by constructor.
Qed.

Lemma emits_pure {A} (c : M A) :
  (∀ w, ∃ r, c w = (r, w)) → emits P c.
Proof.
  intros Hc w r w' E. destruct (Hc w) as (r' & E').
  rewrite E' in E. injection E as <- <-. exists []. by rewrite app_nil_r.
Qed.

End Effects.

Section SilentParts.

Lemma emits_open_w path : emits silent (open_w path).
Proof. apply (emits_event _ (EvOpenW path)); [done|]. intros w. by eexists _, _. Qed.

Lemma emits_write path data : emits silent (write path data).
Proof. apply (emits_event _ (EvWrite path data)); [done|]. intros w. by eexists _, _. Qed.

Lemma emits_remove path : emits silent (remove path).
Proof. apply (emits_event _ (EvRemove path)); [done|]. intros w. by eexists _, _. Qed.

Lemma emits_stderr_write msg : emits silent (stderr_write msg).
Proof. apply (emits_event _ (EvStderr msg)); [done|]. intros w. by eexists _, _. Qed.

Lemma emits_isfile path : emits silent (isfile path).
Proof. apply emits_pure. intros w. by eexists. Qed.

Lemma emits_read_lines path : emits silent (read_lines path).
Proof.
  apply emits_pure. intros w. unfold read_lines.
  destruct (fs w !! path); by eexists.
Qed.

Lemma emits_write_records path T records :
  emits silent (write_records path T records).
Proof.
  induction records as [|r rest IH]; simpl; [apply emits_ret|].
  apply emits_bind; [apply emits_write | done].
Qed.

Lemma emits_split_loop bound filename n T :
  ∀ it files, emits silent (split_loop bound filename n T it files).
Proof.
  induction bound as [|bound IH]; intros it files w r w'; simpl.
  - intros [= <- <-]. exists []. by rewrite app_nil_r.
  - destruct (draw (Z.to_nat n) it [] w) as [[[|r0 records]|e] it'].
    + intros [= <- <-]. exists []. by rewrite app_nil_r.
    + apply emits_bind; [|done]. unfold write_chunk.
      apply emits_bind; [apply emits_open_w|]. intros _. apply emits_write_records.
    + intros [= <- <-]. exists []. by rewrite app_nil_r.
Qed.

Lemma emits_split_fasta filename n T : emits silent (split_fasta filename n T).
Proof. intros w. apply emits_split_loop. Qed.

Lemma emits_clean_tabular raw out : emits silent (clean_tabular raw out).
Proof.
  induction raw as [|line rest IH]; simpl; [apply emits_ret|].
  destruct (clean_tabular_line line); [done| |apply emits_raise].
  apply emits_bind; [apply emits_write | done].
Qed.

Lemma emits_clean_up file_list : emits silent (clean_up file_list).
Proof.
  induction file_list as [|f rest IH]; simpl; [apply emits_ret|].
  apply emits_bind; [|done].
  apply emits_bind; [apply emits_isfile|].
  intros [|]; [apply emits_remove | apply emits_ret].
Qed.

End SilentParts.

(** * Clean-up *)

Lemma clean_up_spec file_list :
  ∀ w, ∃ w' removed,
    clean_up file_list w = (Ok (), w') ∧
    (∀ p, fs w' !! p = if bool_decide (p ∈ file_list) then None else fs w !! p) ∧
    trace w' = trace w ++ (EvRemove <$> removed) ∧
    removed ⊆ file_list.
Proof.
  induction file_list as [|f rest IH]; intros w; cbn [clean_up].
  - exists w, []. rewrite app_nil_r. split; [done|]. split; [|done].
    intros p. rewrite bool_decide_eq_false_2; [done|]. apply not_elem_of_nil.
  - rewrite !bind_run. unfold isfile at 1.
    destruct (bool_decide (is_Some (fs w !! f))) eqn:Hf.
    + unfold remove at 1. set (w1 := World _ _).
      destruct (IH w1) as (w' & removed & Hrun & Hfs & Htr & Hsub).
      exists w', (f :: removed). split; [done|]. split; [|split].
      * intros p. rewrite Hfs. subst w1. cbn [fs].
        destruct (decide (p = f)) as [->|Hne].
        -- rewrite lookup_delete_eq, (bool_decide_eq_true_2 (f ∈ f :: rest)) by left.
           by destruct (bool_decide (f ∈ rest)).
        -- rewrite lookup_delete_ne by done.
           rewrite (bool_decide_ext (p ∈ f :: rest) (p ∈ rest)); [done|].
           rewrite elem_of_cons. tauto.
      * rewrite Htr. subst w1. cbn [trace fmap list_fmap]. by rewrite <- app_assoc.
      * intros x [->|Hx]%elem_of_cons; [left | right; by apply Hsub].
    + cbn [mret M_ret]. destruct (IH w) as (w' & removed & Hrun & Hfs & Htr & Hsub).
      exists w', removed. split; [done|]. split; [|split; [done|]].
      2: { intros x Hx. right. by apply Hsub. }
      intros p. rewrite Hfs. apply bool_decide_eq_false in Hf.
      destruct (decide (p = f)) as [->|Hne].
      * rewrite (bool_decide_eq_true_2 (f ∈ f :: rest)) by left.
        destruct (bool_decide (f ∈ rest)); [done|]. by apply eq_None_not_Some.
      * rewrite (bool_decide_ext (p ∈ f :: rest) (p ∈ rest)); [done|].
        rewrite elem_of_cons. tauto.
Qed.

(** * The invocation loop and the script *)

Section Pipeline.

Variable system : string → gmap string string → Z * gmap string string.

Lemma emits_merge_files temp_files tabular_file :
  emits silent (merge_files temp_files tabular_file).
Proof.
  induction temp_files as [|temp rest IH]; simpl; [apply emits_ret|].
  apply emits_bind; [apply emits_read_lines|]. intros raw.
  apply emits_bind; [apply emits_clean_tabular | done].
Qed.

Lemma emits_merge temp_files tabular_file :
  emits silent (merge temp_files tabular_file).
Proof.
  unfold merge. apply emits_bind; [apply emits_open_w|]. intros _.
  apply emits_bind; [apply emits_write|]. intros _. apply emits_merge_files.
Qed.

Lemma run_jobs_spec organism fasta_files temp_files :
  ∀ jobs w r w',
    run_jobs system organism jobs fasta_files temp_files w = (r, w') →
    (r = Ok () ∧ trace w' = trace w ++ ok_runs organism jobs) ∨
    (∃ k fasta temp st removed,
        jobs !! k = Some (fasta, temp) ∧ st ≠ 0%Z ∧
        r = Raise (SystemExit st) ∧
        trace w' = trace w ++ ok_runs organism (take k jobs)
                   ++ EvSystem (command organism fasta temp) st
                      :: (EvRemove <$> removed)
                   ++ [EvStderr (failure_message st (command organism fasta temp) +:+ nl)] ∧
        removed ⊆ fasta_files ++ temp_files ∧
        ∀ p, p ∈ fasta_files ++ temp_files → fs w' !! p = None).
Proof.
  induction jobs as [|[fasta temp] rest IH]; intros w r w'; cbn [run_jobs].
  - intros [= <- <-]. left. by rewrite app_nil_r.
  - rewrite bind_run. unfold os_system at 1.
    destruct (system (command organism fasta temp) (fs w)) as [st fs1].
    set (w1 := World _ _). case_bool_decide as Hst.
    + destruct (clean_up_spec fasta_files w1) as (w2 & rm1 & Hc1 & Hfs1 & Htr1 & Hsub1).
      destruct (clean_up_spec temp_files w2) as (w3 & rm2 & Hc2 & Hfs2 & Htr2 & Hsub2).
      rewrite bind_run, Hc1, bind_run, Hc2. unfold stop_err, stderr_write, raise.
      rewrite bind_run. intros [= <- <-]. right.
      exists 0, fasta, temp, st, (rm1 ++ rm2). split; [done|]. split; [done|].
      split; [done|]. split; [|split].
      * cbn [trace]. rewrite Htr2, Htr1. subst w1. cbn [trace take ok_runs fmap list_fmap].
        rewrite fmap_app, <- !app_assoc. done.
      * intros x [?|?]%elem_of_app; apply elem_of_app; auto.
      * intros p Hp. cbn [fs]. rewrite Hfs2, Hfs1.
        apply elem_of_app in Hp as [Hp|Hp].
        -- rewrite (bool_decide_eq_true_2 _ Hp). by destruct (bool_decide _).
        -- by rewrite (bool_decide_eq_true_2 _ Hp).
    + assert (st = 0%Z) as -> by (destruct (decide (st = 0%Z)); [done|by destruct Hst]).
      intros [[-> Htr] | (k & f & t & st & removed & Hk & Hne & -> & Htr & Hsub & Hfs)]%IH.
      * left. split; [done|]. rewrite Htr. subst w1. cbn [trace].
        by rewrite <- app_assoc.
      * right. exists (S k), f, t, st, removed. split; [done|]. split; [done|].
        split; [done|]. split; [|done]. rewrite Htr. subst w1. cbn [trace].
        by rewrite <- app_assoc.
Qed.

Lemma ok_runs_quiet organism jobs cmd st :
  EvSystem cmd st ∈ ok_runs organism jobs → st = 0%Z.
Proof.
  unfold ok_runs. intros (j & E & _)%list_elem_of_fmap. by injection E.
Qed.

Lemma silent_not_system evs cmd st :
  Forall silent evs → EvSystem cmd st ∈ evs → False.
Proof. intros Hall Hin. by apply (proj1 (Forall_forall _ _) Hall) in Hin. Qed.

(** C7: when the organism argument is none of [euk], [gram+] and [gram-]
    (or there is no such argument), the script writes one line to stderr
    and exits with status 1 at once: the files are as they were, nothing is
    created, written or removed and no command is run. *)
Theorem bad_organism_stops argv w :
  (∀ organism, argv !! 1 = Some organism → organism ∉ organisms) →
  ∃ msg,
    main system argv w = (Raise (SystemExit 1), World (fs w) (trace w ++ [EvStderr (msg +:+ nl)])) ∧
    exit_status (main system argv w).1 = 1%Z ∧
    (length argv = 4 →
     msg = "Organism argument %s is not one of euk, gram+ or gram-").
Proof.
  intros Horg.
  destruct argv as [|prog [|organism [|fasta_file [|tabular_file [|extra rest]]]]];
    try (by eexists; split; [reflexivity|]; split; [reflexivity|]).
  cbn [main]. rewrite bool_decide_eq_false_2 by (by apply Horg).
  eexists. split; [reflexivity|]. by split.
Qed.


(** *** The merge *)

Lemma clean_tabular_ok raw out :
  ∀ w c,
    Forall passes raw →
    fs w !! out = Some c →
    clean_tabular raw out w =
      (Ok (), World (<[out := c +:+ Str.concat (normalized raw)]> (fs w))
                    (trace w ++ (EvWrite out <$> normalized raw))).
Proof.
  induction raw as [|line rest IH]; intros w c Hall Hc; cbn [clean_tabular].
  - cbn. rewrite StrFacts.str_app_nil_r, app_nil_r, insert_id by done.
    by rewrite world_eta.
  - apply Forall_cons in Hall as [Hline Hall]. unfold normalized. cbn [omap list_omap].
    fold (normalized rest).
    destruct (clean_tabular_line line) as [|s|e] eqn:E.
    + by apply IH.
    + rewrite bind_run. unfold write at 1. rewrite Hc. cbn [default].
      erewrite IH; [|done|apply lookup_insert_eq]. cbn [fs trace fmap list_fmap Str.concat foldr].
      by rewrite insert_insert_eq, <- app_assoc, StrFacts.str_app_assoc.
    + by destruct (Hline e).
Qed.

Lemma merge_files_ok tabular_file :
  ∀ temp_files contents w c,
    Forall2 (λ temp text, temp ≠ tabular_file ∧ fs w !! temp = Some text)
            temp_files contents →
    Forall (λ text, Forall passes (Str.lines text)) contents →
    fs w !! tabular_file = Some c →
    merge_files temp_files tabular_file w =
      (Ok (), World (<[tabular_file :=
                         c +:+ Str.concat (concat (normalized ∘ Str.lines <$> contents))]> (fs w))
                    (trace w ++ (EvWrite tabular_file
                                   <$> concat (normalized ∘ Str.lines <$> contents)))).
Proof.
  induction temp_files as [|temp rest IH]; intros contents w c Hfiles Hall Hc;
    inversion Hfiles as [|? text ? contents' [Hne Htemp] Hfiles']; subst;
    cbn [merge_files].
  - cbn. rewrite StrFacts.str_app_nil_r, app_nil_r, insert_id by done.
    by rewrite world_eta.
  - apply Forall_cons in Hall as [Htext Hall].
    rewrite bind_run. unfold read_lines at 1. rewrite Htemp.
    rewrite bind_run, (clean_tabular_ok _ _ _ c) by done.
    erewrite IH; [| |done|apply lookup_insert_eq].
    + cbn [fs trace fmap list_fmap concat compose].
      rewrite insert_insert_eq, <- app_assoc, fmap_app. f_equal. f_equal. f_equal.
      by rewrite StrFacts.str_concat_app, StrFacts.str_app_assoc.
    + eapply Forall2_impl; [done|]. intros t x [Ht Hx]. split; [done|].
      cbn [fs]. by rewrite lookup_insert_ne.
Qed.

(** C8: when the output table is none of the result files and no line of a
    result file breaks the schema, the merge creates the table, writes the
    header line (the hash sign, the tab-joined column names, a newline)
    once and first, and then writes the reordered lines of the result
    files, file after file in the order of the list and line after line
    within a file; the table ends up holding exactly that text. *)
Theorem merge_output temp_files tabular_file contents w :
  tabular_file ∉ temp_files →
  Forall2 (λ temp text, fs w !! temp = Some text) temp_files contents →
  Forall (λ text, Forall passes (Str.lines text)) contents →
  merge temp_files tabular_file w =
    (Ok (),
     World (<[tabular_file :=
                header_line +:+ Str.concat (concat (normalized ∘ Str.lines <$> contents))]>
              (fs w))
           (trace w ++ EvOpenW tabular_file
                    :: EvWrite tabular_file header_line
                    :: (EvWrite tabular_file
                          <$> concat (normalized ∘ Str.lines <$> contents)))) ∧
  header_line = "#" +:+ Str.join ht fields +:+ nl ∧
  fields = ["ID"; "NN_Cmax_score"; "NN_Cmax_pos"; "NN_Cmax_pred";
            "NN_Ymax_score"; "NN_Ymax_pos"; "NN_Ymax_pred";
            "NN_Smax_score"; "NN_Smax_pos"; "NN_Smax_pred";
            "NN_Smean_score"; "NN_Smean_pred"; "NN_D_score"; "NN_D_pred";
            "HMM_type"; "HMM_Cmax_score"; "HMM_Cmax_pos"; "HMM_Cmax_pred";
            "HMM_Sprob_score"; "HMM_Sprob_pred"].
Proof.
  intros Hout Hfiles Hall. split; [|by split].
  unfold merge. rewrite bind_run. unfold open_w at 1.
  rewrite bind_run. unfold write at 1. cbn [fs trace].
  rewrite lookup_insert_eq. cbn [default].
  erewrite (merge_files_ok _ _ contents); [| |done|apply lookup_insert_eq].
  - cbn [fs trace]. rewrite !insert_insert_eq, <- !app_assoc. done.
  - cbn [fs]. clear Hall. induction Hfiles as [|t x ts xs Ht Hfiles IH]; [constructor|].
    apply not_elem_of_cons in Hout as [Hne Hout]. constructor; [|by apply IH].
    split; [done|]. by rewrite !lookup_insert_ne.
Qed.

End Pipeline.

(** * The theorems on the sample data *)

Lemma bad_organism_stops_witness :
  exit_status (main failing_system ["signalp3.py"; "archaea"; "in.fa"; "out.tab"]
                    sample_world).1 = 1%Z.
Proof.
  destruct (bad_organism_stops failing_system
              ["signalp3.py"; "archaea"; "in.fa"; "out.tab"] sample_world)
    as (msg & _ & Hexit & _); [|exact Hexit].
  intros organism [= <-] Hin.
  repeat (apply elem_of_cons in Hin as [Hin|Hin]; [discriminate Hin|]).
  by apply elem_of_nil in Hin.
Defined.


Lemma merge_output_witness :
  (merge ["in.fa.0.tmp.out"] "out.tab" sample_results_world).1 = Ok ().
Proof.
  destruct (merge_output ["in.fa.0.tmp.out"] "out.tab" [sample_result]
              sample_results_world) as [-> _]; [| | |done].
  - intros Hin. apply elem_of_cons in Hin as [Hin|Hin]; [discriminate Hin|].
    by apply elem_of_nil in Hin.
  - repeat constructor.
  - repeat constructor; intros e He; vm_compute in He; discriminate He.
Defined.

(** A whole run on the sample input: one chunk, one command, a table of
    the header and one data line, and no chunk or result file left. *)
Example sample_run :
  let out := main sample_system sample_argv sample_world in
  out.1 = Ok () ∧
  fs out.2 = {["in.fa" := sample_fasta;
               "out.tab" := header_line +:+ Str.concat (normalized (Str.lines sample_result))]} ∧
  trace out.2 =
    EvOpenW "in.fa.0.tmp"
    :: (EvWrite "in.fa.0.tmp" ∘ fasta_entry TRUNCATE <$> sample_records)
    ++ [EvSystem "signalp -short -t euk in.fa.0.tmp > in.fa.0.tmp.out" 0;
        EvOpenW "out.tab"; EvWrite "out.tab" header_line;
        EvWrite "out.tab" (Str.join ht (reorder (raw_fields sample_raw_line)) +:+ nl);
        EvRemove "in.fa.0.tmp"; EvRemove "in.fa.0.tmp.out"].
Proof. vm_compute. done. Qed.

(** * More on the string primitives *)

Module StrMore.
Import Str StrFacts.

Lemma mem_app c s t : mem c (s +:+ t) = mem c s || mem c t.
Proof.
  induction s as [|d s IH]; [done|].
  rewrite str_app_cons. simpl. by rewrite IH, orb_assoc.
Qed.

Lemma rstrip_chars_idem p s : rstrip_chars p (rstrip_chars p s) = rstrip_chars p s.
Proof.
  induction s as [|c s IH]; [done|]. simpl.
  destruct (p c && negb (truthy (rstrip_chars p s))) eqn:E; [done|].
  simpl. by rewrite IH, E.
Qed.

Lemma rstrip_chars_snoc p s c :
  p c = true → rstrip_chars p (s +:+ of_char c) = rstrip_chars p s.
Proof.
  intros Hc. induction s as [|d s IH].
  - rewrite str_app_nil_l. simpl. by rewrite Hc.
  - rewrite str_app_cons. simpl. by rewrite IH.
Qed.

Lemma rstrip_chars_none p s :
  forallb (λ c, negb (p c)) s = true → rstrip_chars p s = s.
Proof.
  induction s as [|c s IH]; [done|]. simpl.
  intros [Hc Hs]%andb_prop. rewrite (IH Hs).
  apply negb_true_iff in Hc. by rewrite Hc.
Qed.

Lemma rstrip_chars_mem p c s :
  mem c s = false → mem c (rstrip_chars p s) = false.
Proof.
  induction s as [|d s IH]; [done|]. simpl.
  intros [Hd Hs]%orb_false_elim.
  destruct (p d && negb (truthy (rstrip_chars p s))); [done|].
  simpl. by rewrite Hd, IH.
Qed.

Lemma lstrip_mem c s : mem c s = false → mem c (lstrip s) = false.
Proof.
  induction s as [|d s IH]; [done|]. simpl.
  intros [Hd Hs]%orb_false_elim.
  destruct (is_space d); [by apply IH|]. simpl. by rewrite Hd, Hs.
Qed.

Lemma lstrip_none s : forallb nonspace s = true → lstrip s = s.
Proof.
  destruct s as [|c s]; [done|]. simpl. unfold nonspace.
  intros [Hc _]%andb_prop. apply negb_true_iff in Hc. by rewrite Hc.
Qed.

Lemma strip_none s : forallb nonspace s = true → strip s = s.
Proof.
  intros H. unfold strip, rstrip. rewrite rstrip_chars_none by done.
  by apply lstrip_none.
Qed.

Lemma nonspace_no_lf s : forallb nonspace s = true → mem lf s = false.
Proof. by apply nonspace_mem. Qed.

Lemma forallb_take_chars p n s :
  forallb p s = true → forallb p (take_chars n s) = true.
Proof.
  revert s. induction n as [|n IH]; intros [|c s]; simpl; try done.
  intros [Hc Hs]%andb_prop. by rewrite Hc, IH.
Qed.

Lemma forallb_slice_to p T s :
  forallb p s = true → forallb p (slice_to T s) = true.
Proof. intros H. unfold slice_to. case_match; by apply forallb_take_chars. Qed.

Lemma forallb_impl (p q : ascii → bool) s :
  (∀ c, p c = true → q c = true) → forallb p s = true → forallb q s = true.
Proof.
  intros Hpq. induction s as [|c s IH]; [done|]. simpl.
  intros [Hc Hs]%andb_prop. by rewrite (Hpq _ Hc), IH.
Qed.

(** Reading the lines of a text that begins with a whole line. *)
Lemma lines_go_line a rest cur :
  mem lf a = false →
  lines_go (a +:+ String lf rest) cur = (cur +:+ a +:+ of_char lf) :: lines_go rest "".
Proof.
  revert cur. induction a as [|c a IH]; intros cur; simpl.
  - done.
  - intros [Hc Ha]%orb_false_elim. apply bool_decide_eq_false in Hc.
    rewrite bool_decide_eq_false_2 by congruence.
    rewrite (IH _ Ha). f_equal. by rewrite <- str_app_assoc.
Qed.

Lemma lines_line a rest :
  mem lf a = false → lines (a +:+ nl +:+ rest) = (a +:+ nl) :: lines rest.
Proof.
  intros H. unfold lines.
  change (a +:+ nl +:+ rest) with (a +:+ String lf rest).
  by rewrite (lines_go_line a rest "" H).
Qed.

Lemma lines_go_shaped s cur :
  mem lf cur = false → Forall line_shaped (lines_go s cur).
Proof.
  revert cur. induction s as [|c s IH]; intros cur Hcur; simpl.
  - destruct (truthy cur); repeat constructor. exists cur. auto.
  - case_bool_decide as Hc.
    + constructor; [|by apply IH]. exists cur. auto.
    + apply IH. rewrite mem_app, Hcur. simpl.
      rewrite orb_false_r. apply bool_decide_eq_false. congruence.
Qed.

Lemma lines_shaped s : Forall line_shaped (lines s).
Proof. by apply lines_go_shaped. Qed.

Lemma line_shaped_tail l : line_shaped l → line_shaped (tail l).
Proof.
  intros (body & Hb & [-> | ->]).
  - exists (tail body). split; [|by left]. destruct body as [|c b]; [done|].
    simpl in *. by apply orb_false_elim in Hb as [_ ?].
  - destruct body as [|c b].
    + exists "". split; [done|]. by left.
    + exists b. simpl in Hb. apply orb_false_elim in Hb as [_ ?]. split; [done|]. by right.
Qed.

Lemma line_shaped_rstrip l : line_shaped l → mem lf (rstrip l) = false.
Proof.
  intros (body & Hb & [-> | ->]); unfold rstrip.
  - by apply rstrip_chars_mem.
  - unfold nl. rewrite rstrip_chars_snoc by done. by apply rstrip_chars_mem.
Qed.

Lemma line_shaped_strip l : line_shaped l → mem lf (strip l) = false.
Proof. intros H. by apply lstrip_mem, line_shaped_rstrip. Qed.

End StrMore.

(** * What the generator yields, and reading a chunk file back *)

Section Records.
Import StrFacts StrMore.

Lemma fasta_loop_ok lines title seq x it' :
  Forall line_shaped lines →
  Str.rstrip title = title → Str.mem Str.lf title = false →
  Str.mem Str.lf seq = false →
  fasta_loop lines title seq = (x, it') →
  gen_ok it' ∧
  match x with
  | Ok r => tidy_title r.1 ∧ Str.mem Str.lf r.2 = false
  | Raise _ => True
  end.
Proof.
  intros Hlines. revert title seq.
  induction Hlines as [|line rest Hline Hrest IH]; intros title seq Ht1 Ht2 Hseq; simpl.
  - destruct (Str.truthy title) eqn:Ht; intros [= <- <-]; simpl; [|done].
    by repeat split.
  - pose proof (line_shaped_rstrip _ (line_shaped_tail _ Hline)) as Hnew.
    destruct (Str.startswith line ">").
    + destruct (Str.truthy title) eqn:Ht.
      * intros [= <- <-]. simpl. repeat split; try done.
        apply rstrip_chars_idem.
      * apply IH; [apply rstrip_chars_idem|done..].
    + destruct (Str.truthy title) eqn:Ht.
      * apply IH; [done..|]. rewrite mem_app, Hseq. simpl.
        by apply line_shaped_strip.
      * destruct (negb (Str.truthy (Str.strip line)) || Str.startswith line "#").
        -- by apply IH.
        -- by intros [= <- <-].
Qed.

Lemma next_ok it w x it' :
  gen_ok it → next it w = (x, it') →
  gen_ok it' ∧
  match x with
  | Ok r => tidy_title r.1 ∧ Str.mem Str.lf r.2 = false
  | Raise _ => True
  end.
Proof.
  destruct it as [f|rest title seq|]; simpl.
  - intros _. destruct (fs w !! f) as [c|]; [|by intros [= <- <-]].
    apply fasta_loop_ok; [apply lines_shaped|done..].
  - intros (? & ? & ? & ?). by apply fasta_loop_ok.
  - by intros _ [= <- <-].
Qed.

Lemma drains_tidy w it recs e :
  drains w it recs e → gen_ok it →
  Forall (λ r, tidy_title r.1 ∧ Str.mem Str.lf r.2 = false) recs.
Proof.
  intros Hd. induction Hd as [it it' e Hn | it it' r rs e Hn Hd IH];
    intros Hok; [constructor|].
  destruct (next_ok _ _ _ _ Hok Hn) as [Hok' Hr]. constructor; [done|by apply IH].
Qed.

(** X1: every record the generator yields has a title that is not empty,
    holds no newline and ends with no white space, and a sequence without
    any newline, however the iteration ends. *)
Theorem fasta_iterator_records_tidy w filename recs e :
  drains w (fasta_iterator filename) recs e →
  Forall (λ r, tidy_title r.1 ∧ Str.mem Str.lf r.2 = false) recs.
Proof. intros Hd. by eapply drains_tidy. Qed.

Lemma drains_same_next w it1 it2 recs e :
  next it1 w = next it2 w → drains w it2 recs e → drains w it1 recs e.
Proof.
  intros E Hd. inversion Hd as [? it' ? Hn | ? it' r rs ? Hn Hrs]; subst.
  - eapply drains_end. by rewrite E.
  - eapply drains_yield; [by rewrite E | done].
Qed.

Lemma lines_entry T r text :
  Str.mem Str.lf r.1 = false → Str.mem Str.lf (Str.slice_to T r.2) = false →
  Str.lines (fasta_entry T r +:+ text)
  = (">" +:+ r.1 +:+ nl) :: (Str.slice_to T r.2 +:+ nl) :: Str.lines text.
Proof.
  intros Ht Hs. unfold fasta_entry.
  replace ((">" +:+ r.1 +:+ nl +:+ Str.slice_to T r.2 +:+ nl) +:+ text)
    with ((">" +:+ r.1) +:+ nl +:+ (Str.slice_to T r.2 +:+ nl +:+ text)).
  - rewrite lines_line by (by rewrite mem_app, Ht).
    rewrite lines_line by done. by rewrite <- str_app_assoc.
  - by rewrite <- !str_app_assoc.
Qed.

Lemma title_line t :
  tidy_title t →
  Str.startswith (">" +:+ t +:+ nl) ">" = true ∧
  Str.rstrip (Str.tail (">" +:+ t +:+ nl)) = t.
Proof.
  intros (_ & Hr & _). split.
  { change (">" +:+ t +:+ nl) with (String ">" (t +:+ nl)).
    unfold Str.startswith. cbn [String.prefix].
    destruct (Ascii.ascii_dec ">" ">"); [|done]. by destruct (t +:+ nl). }
  change (Str.tail (">" +:+ t +:+ nl)) with (t +:+ nl).
  unfold Str.rstrip, nl in *. by rewrite rstrip_chars_snoc.
Qed.

Lemma plain_nonspace s : plain_seq s → Str.forallb Str.nonspace s = true.
Proof.
  apply forallb_impl. intros c. unfold residue. by intros [? _]%andb_prop.
Qed.

Lemma seq_line s :
  plain_seq s →
  Str.startswith (s +:+ nl) ">" = false ∧ Str.strip (s +:+ nl) = s.
Proof.
  intros Hs. split.
  - destruct s as [|c s]; [done|]. unfold plain_seq in Hs. simpl in Hs.
    apply andb_prop in Hs as [[_ Hc]%andb_prop _].
    apply negb_true_iff, bool_decide_eq_false in Hc.
    rewrite str_app_cons. unfold Str.startswith. cbn [String.prefix].
    destruct (Ascii.ascii_dec ">" c) as [E|]; [by destruct Hc|done].
  - unfold Str.strip, Str.rstrip, nl. rewrite rstrip_chars_snoc by done.
    by apply strip_none, plain_nonspace.
Qed.

Lemma fasta_loop_seq_line s rest t :
  plain_seq s → Str.truthy t = true →
  fasta_loop ((s +:+ nl) :: rest) t "" = fasta_loop rest t s.
Proof.
  intros Hs Ht. destruct (seq_line s Hs) as [Hs1 Hs2].
  cbn [fasta_loop]. by rewrite Hs1, Ht, Hs2.
Qed.

Lemma fasta_loop_title_yield t' rest t s :
  tidy_title t' → Str.truthy t = true →
  fasta_loop ((">" +:+ t' +:+ nl) :: rest) t s = (Ok (t, s), GenLoop rest t' "").
Proof.
  intros Ht' Ht. destruct (title_line _ Ht') as [Hh1 Hh2].
  cbn [fasta_loop]. by rewrite Hh1, Ht, Hh2.
Qed.

Lemma fasta_loop_title_first t' rest :
  tidy_title t' →
  fasta_loop ((">" +:+ t' +:+ nl) :: rest) "" "" = fasta_loop rest t' "".
Proof.
  intros Ht'. destruct (title_line _ Ht') as [Hh1 Hh2].
  cbn [fasta_loop]. by rewrite Hh1, Hh2.
Qed.

Lemma drains_written w T records :
  ∀ t s,
    tidy_title t → plain_seq s →
    Forall (λ r, tidy_title r.1 ∧ plain_seq (Str.slice_to T r.2)) records →
    drains w (GenLoop ((s +:+ nl) :: Str.lines (chunk_text T records)) t "")
           ((t, s) :: (truncated T <$> records)) StopIteration.
Proof.
  induction records as [|r rest IH]; intros t s Ht Hs Hall;
    pose proof Ht as (Htt & _).
  - eapply drains_yield; [|apply drains_done].
    cbn [next]. rewrite fasta_loop_seq_line by done.
    change (Str.lines (chunk_text T [])) with (@nil string).
    cbn [fasta_loop]. by rewrite Htt.
  - apply Forall_cons in Hall as [[Hrt Hrs] Hall]. pose proof Hrt as (_ & _ & Hlf).
    eapply drains_yield; [|by apply (IH r.1 (Str.slice_to T r.2))].
    cbn [chunk_text foldr]. fold (chunk_text T rest).
    rewrite lines_entry; [|done|by apply nonspace_no_lf, plain_nonspace].
    cbn [next]. rewrite fasta_loop_seq_line by done.
    by apply fasta_loop_title_yield.
Qed.

Lemma chunk_text_drains w T records path :
  Forall (λ r, tidy_title r.1 ∧ plain_seq (Str.slice_to T r.2)) records →
  fs w !! path = Some (chunk_text T records) →
  drains w (fasta_iterator path) (truncated T <$> records) StopIteration.
Proof.
  intros Hall Hfile. destruct records as [|r rest].
  - eapply drains_end. simpl. by rewrite Hfile.
  - apply Forall_cons in Hall as [[Hrt Hrs] Hall]. pose proof Hrt as (_ & _ & Hlf).
    eapply drains_same_next; [|by apply (drains_written w T rest r.1 (Str.slice_to T r.2))].
    unfold fasta_iterator. cbn [next]. rewrite Hfile.
    cbn [chunk_text foldr]. fold (chunk_text T rest).
    rewrite lines_entry; [|done|by apply nonspace_no_lf, plain_nonspace].
    by apply fasta_loop_title_first.
Qed.

(** X2: a file that holds the entries [split_fasta] writes for records
    with tidy titles, whose written sequences hold no white space and no
    mark of a title line, is read back by the generator as the same
    records with truncated sequences, in the same order, to its end. *)
Theorem chunk_file_read_back w T records path :
  Forall (λ r, tidy_title r.1 ∧ plain_seq (Str.slice_to T r.2)) records →
  fs w !! path = Some (chunk_text T records) →
  drains w (fasta_iterator path) (truncated T <$> records) StopIteration.
Proof. apply chunk_text_drains. Qed.

(** X3: when the sequences of the input hold no white space and no mark
    of a title line, every chunk file [split_fasta] wrote is itself an
    input the generator reads to its end: it gives back the records of its
    group, titles unchanged and sequences truncated. *)
Theorem split_fasta_chunks_read_back filename (n T : Z) w recs :
  drains w (fasta_iterator filename) recs StopIteration →
  (1 ≤ n)%Z →
  Forall (λ r, plain_seq r.2) recs →
  ∃ w',
    split_fasta filename n T w
      = (Ok (chunk_name filename <$> seq 0 (ceil_div (length recs) (Z.to_nat n))), w') ∧
    ∀ i, i < ceil_div (length recs) (Z.to_nat n) →
      drains w' (fasta_iterator (chunk_name filename i))
             (truncated T <$> nth_chunk (Z.to_nat n) recs i) StopIteration.
Proof.
  intros Hd Hn Hplain.
  pose proof (drains_tidy _ _ _ _ Hd I) as Htidy. unfold fasta_iterator in Hd.
  assert (0 < Z.to_nat n) as HC by lia.
  destruct (split_loop_result filename n T ltac:(lia)
              (ceil_div (length recs) (Z.to_nat n))
              (S (gen_size (GenNew filename) w)) (GenNew filename) [] w recs)
    as (w' & Hrun & _ & Hfiles & _); [done..| |].
  { pose proof (drains_length _ _ _ _ Hd). pose proof (ceil_div_le (length recs) _ HC).
    lia. }
  exists w'. split; [done|]. intros i Hi.
  apply chunk_text_drains; [|by apply Hfiles].
  unfold nth_chunk. apply Forall_take, Forall_drop.
  apply Forall_forall. intros r Hr.
  split; [by apply (proj1 (Forall_forall _ _) Htidy r Hr)|].
  by apply forallb_slice_to, (proj1 (Forall_forall _ _) Hplain r Hr).
Qed.

End Records.

(** * [split_fasta]: edge cases and errors *)

Section SplitterEdges.
Import StrFacts.

(** X4: with a chunk size of 0 or less the loop over [range(n)] draws
    nothing: [split_fasta] returns the empty list at once, without any
    effect and without opening the input (which need not even exist). *)
Theorem split_fasta_no_chunk_size filename (n T : Z) w :
  (n ≤ 0)%Z → split_fasta filename n T w = (Ok [], w).
Proof.
  intros Hn. unfold split_fasta. cbn [split_loop].
  by replace (Z.to_nat n) with 0 by lia.
Qed.

(** X5: when the input file does not exist and the chunk size is at least
    1, [split_fasta] ends with the IOError of the first [next]; nothing is
    created or written. *)
Theorem split_fasta_missing_input filename (n T : Z) w :
  fs w !! filename = None → (1 ≤ n)%Z →
  split_fasta filename n T w = (Raise (IOError filename), w).
Proof.
  intros Hf Hn. unfold split_fasta, fasta_iterator. cbn [split_loop].
  destruct (Z.to_nat n) as [|k] eqn:E; [lia|].
  cbn [draw next]. by rewrite Hf.
Qed.

Lemma chunk_name_not_input filename i : chunk_name filename i ≠ filename.
Proof.
  unfold chunk_name. intros E. apply (f_equal String.length) in E.
  rewrite str_length_app in E. simpl in E. lia.
Qed.

Lemma emits_chunk_write filename i T records :
  emits (chunk_event filename) (write_chunk (chunk_name filename i) T records).
Proof.
  unfold write_chunk. apply emits_bind.
  - apply (emits_event _ (EvOpenW (chunk_name filename i))); [by exists i|].
    intros w. by eexists _, _.
  - intros _. induction records as [|r rest IH]; [apply emits_ret|].
    cbn [write_records]. apply emits_bind; [|done].
    apply (emits_event _ (EvWrite (chunk_name filename i) (fasta_entry T r)));
      [by exists i|].
    intros w. by eexists _, _.
Qed.

Lemma emits_split_loop_chunks bound filename n T :
  ∀ it files, emits (chunk_event filename) (split_loop bound filename n T it files).
Proof.
  induction bound as [|bound IH]; intros it files w r w'; simpl.
  - intros [= <- <-]. exists []. by rewrite app_nil_r.
  - destruct (draw (Z.to_nat n) it [] w) as [[[|r0 records]|e] it'].
    + intros [= <- <-]. exists []. by rewrite app_nil_r.
    + apply emits_bind; [apply emits_chunk_write | done].
    + intros [= <- <-]. exists []. by rewrite app_nil_r.
Qed.

(** However the loop ends, it leaves alone every path that is no chunk
    name with an index from [length files] on. *)
Lemma split_loop_frame bound filename n T :
  ∀ it files w r w',
    split_loop bound filename n T it files w = (r, w') →
    ∀ p, (∀ i, length files ≤ i → p ≠ chunk_name filename i) →
         fs w' !! p = fs w !! p.
Proof.
  induction bound as [|bound IH]; intros it files w r w'; simpl.
  - by intros [= <- <-].
  - destruct (draw (Z.to_nat n) it [] w) as [[[|r0 records]|e] it'];
      try by intros [= <- <-].
    rewrite bind_run, write_chunk_spec. intros Hrun p Hp.
    rewrite (IH _ _ _ _ _ Hrun).
    + simpl. apply lookup_insert_ne. intros E. by apply (Hp (length files)).
    + intros i Hi. apply Hp. rewrite length_app in Hi. simpl in Hi. lia.
Qed.

(** X6: however [split_fasta] ends, the only files it opens or writes are
    chunk files [filename.i.tmp]: every other path, the input among them,
    holds what it held before, nothing is removed and no command is run. *)
Theorem split_fasta_touches_chunks_only filename (n T : Z) w :
  (∀ p, (∀ i, p ≠ chunk_name filename i) →
        fs (split_fasta filename n T w).2 !! p = fs w !! p) ∧
  fs (split_fasta filename n T w).2 !! filename = fs w !! filename ∧
  ∃ evs, trace (split_fasta filename n T w).2 = trace w ++ evs ∧
         Forall (chunk_event filename) evs.
Proof.
  destruct (split_fasta filename n T w) as [r w'] eqn:Hrun. simpl.
  assert (∀ p, (∀ i, p ≠ chunk_name filename i) → fs w' !! p = fs w !! p) as Hframe.
  { intros p Hp. eapply split_loop_frame; [exact Hrun|]. intros i _. apply Hp. }
  split; [done|]. split.
  - apply Hframe. intros i E. by apply (chunk_name_not_input filename i).
  - by eapply emits_split_loop_chunks.
Qed.

Lemma draw_drains_error k it acc w recs e :
  drains w it recs e → e ≠ StopIteration →
  (k ≤ length recs →
     ∃ it', draw k it acc w = (Ok (acc ++ take k recs), it') ∧
            (k = 0 → it' = it) ∧
            (0 < k → ∀ w', drains w' it' (drop k recs) e)) ∧
  (length recs < k → draw k it acc w = (Raise e, GenDone)).
Proof.
  intros Hd He. revert it acc recs Hd.
  induction k as [|k IH]; intros it acc recs Hd.
  - split; [|lia]. intros _. exists it. simpl. rewrite app_nil_r.
    split; [done|]. split; [done|lia].
  - inversion Hd as [? it1 ? Hn | ? it1 r rs ? Hn Hrs]; subst; simpl; rewrite Hn.
    + split; [simpl; lia|]. intros _. apply next_raise in Hn as ->.
      by destruct e.
    + destruct (IH it1 (acc ++ [r]) rs Hrs) as [Hle Hgt]. split.
      * intros Hk. destruct Hle as (it' & Hdraw & H0 & Hpos); [simpl in Hk; lia|].
        exists it'. rewrite Hdraw, <- app_assoc. split; [done|]. split; [done|].
        intros _ w'. destruct k as [|k].
        -- rewrite (H0 eq_refl). simpl. rewrite drop_0.
           eapply drains_world; [by eapply next_not_new | done].
        -- apply Hpos. lia.
      * intros Hk. apply Hgt. simpl in Hk. lia.
Qed.

Lemma div_step N C : 0 < C → C ≤ N → N / C = S ((N - C) / C).
Proof.
  intros HC HN. replace N with ((N - C) + 1 * C) at 1 by lia.
  rewrite Nat.div_add by lia. lia.
Qed.

Lemma split_loop_error filename n T (Hn : (0 < n)%Z) e (He : e ≠ StopIteration) m :
  ∀ bound it files w recs,
    drains w it recs e →
    m = length recs / Z.to_nat n →
    m < bound →
    ∃ w', split_loop bound filename n T it files w = (Raise e, w') ∧
          created (trace w')
            = created (trace w) ++ (chunk_name filename <$> seq (length files) m) ∧
          (∀ i, i < m →
             fs w' !! chunk_name filename (length files + i)
             = Some (chunk_text T (nth_chunk (Z.to_nat n) recs i)) ∧
             length (nth_chunk (Z.to_nat n) recs i) = Z.to_nat n).
Proof.
  unfold nth_chunk.
  assert (0 < Z.to_nat n) as HC by lia. remember (Z.to_nat n) as C eqn:EC.
  induction m as [|m IH]; intros bound it files w recs Hd Hm Hb;
    (destruct bound as [|bound]; [lia|]); simpl; rewrite <- EC;
    destruct (draw_drains_error C it [] w recs e Hd He) as [Hle Hgt].
  - symmetry in Hm. apply Nat.div_small_iff in Hm; [|lia].
    rewrite (Hgt Hm). exists w. simpl. rewrite app_nil_r.
    split; [done|]. split; [done|]. intros; lia.
  - assert (C ≤ length recs) as HN.
    { destruct (decide (C ≤ length recs)); [done|].
      rewrite Nat.div_small in Hm by lia. done. }
    destruct (Hle HN) as (it' & Hdraw & _ & Hrest). rewrite Hdraw. simpl.
    destruct recs as [|r0 recs]; [simpl in HN; lia|].
    destruct C as [|c]; [lia|]. simpl take.
    rewrite bind_run, write_chunk_spec.
    set (name := chunk_name filename (length files)).
    set (w1 := World _ _).
    destruct (IH bound it' (files ++ [name]) w1 (drop (S c) (r0 :: recs)))
      as (w' & Hloop & Hcr & Hfiles).
    { apply Hrest. lia. }
    { rewrite div_step in Hm by lia. rewrite length_drop. by injection Hm. }
    { lia. }
    rewrite length_app in Hcr, Hfiles. simpl in Hcr, Hfiles.
    rewrite Nat.add_1_r in Hcr, Hfiles.
    exists w'. split; [done|]. split.
    + rewrite Hcr. subst w1. simpl trace.
      rewrite created_app. simpl. by rewrite created_writes, <- app_assoc.
    + intros [|i] Hi.
      * rewrite Nat.add_0_r. split.
        -- etrans.
           { eapply split_loop_frame; [exact Hloop|]. intros j Hj E.
             apply chunk_name_inj in E. rewrite length_app in Hj. simpl in Hj. lia. }
           subst w1. simpl. by rewrite lookup_insert_eq.
        -- simpl. rewrite length_take. simpl in HN. lia.
      * replace (length files + S i) with (S (length files) + i) by lia.
        destruct (Hfiles i) as [Hf Hl]; [lia|]. rewrite drop_drop in Hf, Hl.
        split; [rewrite Hf; repeat f_equal; lia|].
        etrans; [|exact Hl]. simpl. repeat f_equal; lia.
Qed.

(** X7: when the generator stops with an error after [N] records (a bad
    line, a missing file) and the chunk size is [C >= 1], [split_fasta]
    ends with that error; the [N / C] full chunks drawn before are on disk,
    in order, each with exactly [C] records, and are the only files
    created: the records of the unfinished group are written nowhere. *)
Theorem split_fasta_bad_input filename (n T : Z) w recs e :
  drains w (fasta_iterator filename) recs e →
  e ≠ StopIteration →
  (1 ≤ n)%Z →
  ∃ w',
    split_fasta filename n T w = (Raise e, w') ∧
    created (trace w')
      = created (trace w) ++ (chunk_name filename <$> seq 0 (length recs / Z.to_nat n)) ∧
    ∀ i, i < length recs / Z.to_nat n →
      fs w' !! chunk_name filename i
        = Some (chunk_text T (nth_chunk (Z.to_nat n) recs i)) ∧
      length (nth_chunk (Z.to_nat n) recs i) = Z.to_nat n.
Proof.
  intros Hd He Hn. unfold fasta_iterator in Hd.
  assert (0 < Z.to_nat n) as HC by lia.
  destruct (split_loop_error filename n T ltac:(lia) e He
              (length recs / Z.to_nat n)
              (S (gen_size (GenNew filename) w)) (GenNew filename) [] w recs)
    as (w' & Hrun & Hcr & Hfiles); [done..| |].
  { pose proof (drains_length _ _ _ _ Hd).
    pose proof (Nat.Div0.div_le_upper_bound (length recs) (Z.to_nat n) (length recs)).
    nia. }
  exists w'. split; [done|]. by split.
Qed.

End SplitterEdges.

(** * The paths of the intermediate files *)

Section Paths.
Import StrFacts.

Lemma str_snoc_inj s t c d :
  s +:+ Str.of_char c = t +:+ Str.of_char d → c = d.
Proof.
  revert t. induction s as [|a s IH]; intros [|b t] E.
  - by injection E.
  - rewrite str_app_cons, str_app_nil_l in E. injection E as _ E.
    apply (f_equal String.length) in E. rewrite str_length_app in E. simpl in E. lia.
  - rewrite str_app_cons, str_app_nil_l in E. injection E as _ E.
    apply (f_equal String.length) in E. rewrite str_length_app in E. simpl in E. lia.
  - rewrite !str_app_cons in E. injection E as _ E. by apply (IH t).
Qed.

#[local] Instance chunk_name_Inj filename : Inj (=) (=) (chunk_name filename).
Proof. intros i j. apply chunk_name_inj. Qed.

#[local] Instance out_name_Inj : Inj (=) (=) out_name.
Proof. intros f g. apply str_app_inj_r. Qed.

Lemma chunk_name_not_out filename i j :
  chunk_name filename i ≠ out_name (chunk_name filename j).
Proof.
  unfold out_name, chunk_name. intros E.
  rewrite <- !str_app_assoc in E.
  apply (inj (String.app filename)) in E. apply (inj (String.app ".")) in E.
  change ".tmp" with (".tm" +:+ Str.of_char "p") in E at 1.
  change ".out" with (".ou" +:+ Str.of_char "t") in E.
  rewrite !str_app_assoc in E. by apply str_snoc_inj in E.
Qed.

Lemma out_name_not_input filename i : out_name (chunk_name filename i) ≠ filename.
Proof.
  unfold out_name, chunk_name. intros E. apply (f_equal String.length) in E.
  rewrite !str_length_app in E. simpl in E. lia.
Qed.

(** X8: the chunk files [filename.i.tmp] of a run and their result files
    [filename.i.tmp.out] have pairwise different paths, and none of them
    is the path of the input: no intermediate file overwrites another one
    or the input. *)
Theorem intermediate_paths_distinct filename m :
  NoDup ((chunk_name filename <$> seq 0 m)
         ++ (out_name <$> (chunk_name filename <$> seq 0 m))) ∧
  filename ∉ (chunk_name filename <$> seq 0 m)
             ++ (out_name <$> (chunk_name filename <$> seq 0 m)).
Proof.
  split.
  - apply NoDup_app. split; [|split].
    + apply (NoDup_fmap_2 _), NoDup_seq.
    + intros x (i & -> & _)%list_elem_of_fmap (y & E & (j & -> & _)%list_elem_of_fmap)%list_elem_of_fmap.
      by apply chunk_name_not_out in E.
    + apply (NoDup_fmap_2 _), (NoDup_fmap_2 _), NoDup_seq.
  - intros [Hin|Hin]%elem_of_app.
    + apply list_elem_of_fmap in Hin as (i & E & _).
      symmetry in E. by apply chunk_name_not_input in E.
    + apply list_elem_of_fmap in Hin as (y & E & (j & -> & _)%list_elem_of_fmap).
      symmetry in E. by apply out_name_not_input in E.
Qed.

End Paths.

(** * More on [clean_up] *)

Section CleanUp.

(** X9: [clean_up] never fails. It calls [os.remove] once on each listed
    path that names a file at that moment, and on nothing else, so never on
    a missing file; afterwards no listed path names a file and every other
    path holds what it held. *)
Theorem clean_up_removes_listed_files file_list :
  ∀ w, ∃ w' removed,
    clean_up file_list w = (Ok (), w') ∧
    (∀ p, fs w' !! p = if bool_decide (p ∈ file_list) then None else fs w !! p) ∧
    trace w' = trace w ++ (EvRemove <$> removed) ∧
    NoDup removed ∧
    (∀ p, p ∈ removed ↔ p ∈ file_list ∧ is_Some (fs w !! p)).
Proof.
  induction file_list as [|f rest IH]; intros w; cbn [clean_up].
  - exists w, []. rewrite app_nil_r. split; [done|]. split; [|split; [done|split]].
    + intros p. rewrite bool_decide_eq_false_2; [done|]. apply not_elem_of_nil.
    + constructor.
    + intros p. split; [by intros ?%elem_of_nil | by intros [?%elem_of_nil _]].
  - rewrite !bind_run. unfold isfile at 1.
    destruct (bool_decide (is_Some (fs w !! f))) eqn:Hf.
    + apply bool_decide_eq_true in Hf.
      unfold remove at 1. set (w1 := World _ _).
      destruct (IH w1) as (w' & removed & Hrun & Hfs & Htr & Hnd & Hin).
      assert (∀ p, p ∈ removed ↔ p ∈ rest ∧ p ≠ f ∧ is_Some (fs w !! p)) as Hin'.
      { intros p. rewrite Hin. subst w1. cbn [fs].
        destruct (decide (p = f)) as [->|Hne].
        - rewrite lookup_delete_eq. split; [by intros [_ []%is_Some_None]|tauto].
        - rewrite lookup_delete_ne by done. tauto. }
      exists w', (f :: removed). split; [done|]. split; [|split; [|split]].
      * intros p. rewrite Hfs. subst w1. cbn [fs].
        destruct (decide (p = f)) as [->|Hne].
        -- rewrite lookup_delete_eq, (bool_decide_eq_true_2 (f ∈ f :: rest)) by left.
           by destruct (bool_decide (f ∈ rest)).
        -- rewrite lookup_delete_ne by done.
           rewrite (bool_decide_ext (p ∈ f :: rest) (p ∈ rest)); [done|].
           rewrite elem_of_cons. tauto.
      * rewrite Htr. subst w1. cbn [trace fmap list_fmap]. by rewrite <- app_assoc.
      * constructor; [|done]. rewrite Hin'. tauto.
      * intros p. rewrite !elem_of_cons, Hin'.
        destruct (decide (p = f)) as [->|Hne]; tauto.
    + apply bool_decide_eq_false in Hf.
      cbn [mret M_ret]. destruct (IH w) as (w' & removed & Hrun & Hfs & Htr & Hnd & Hin).
      exists w', removed. split; [done|]. split; [|split; [done|split; [done|]]].
      * intros p. rewrite Hfs.
        destruct (decide (p = f)) as [->|Hne].
        -- rewrite (bool_decide_eq_true_2 (f ∈ f :: rest)) by left.
           destruct (bool_decide (f ∈ rest)); [done|]. by apply eq_None_not_Some.
        -- rewrite (bool_decide_ext (p ∈ f :: rest) (p ∈ rest)); [done|].
           rewrite elem_of_cons. tauto.
      * intros p. rewrite Hin, elem_of_cons.
        destruct (decide (p = f)) as [->|Hne]; tauto.
Qed.

Lemma clean_up_absent file_list :
  ∀ w, (∀ p, p ∈ file_list → fs w !! p = None) → clean_up file_list w = (Ok (), w).
Proof.
  induction file_list as [|f rest IH]; intros w Habs; cbn [clean_up]; [done|].
  rewrite !bind_run. unfold isfile at 1.
  rewrite (Habs f) by left. rewrite bool_decide_eq_false_2 by (by intros [? ?]).
  cbn [mret M_ret]. apply IH. intros p Hp. apply Habs. by right.
Qed.

(** X10: a second [clean_up] of the same list right after the first one
    does nothing: it removes no file and leaves the state as it is. *)
Theorem clean_up_twice file_list w :
  clean_up file_list (clean_up file_list w).2 = (Ok (), (clean_up file_list w).2).
Proof.
  destruct (clean_up_spec file_list w) as (w' & removed & -> & Hfs & _).
  cbn [snd]. apply clean_up_absent. intros p Hp.
  by rewrite Hfs, bool_decide_eq_true_2.
Qed.

End CleanUp.

(** * More on the normaliser *)

Section NormaliserMore.
Import Str StrFacts StrMore.

Lemma split_go_cells s tok :
  Forall (λ t, truthy t = true) (split_go s tok).
Proof.
  revert tok. induction s as [|c s IH]; intros tok; simpl.
  - destruct (truthy tok) eqn:E; by repeat constructor.
  - destruct (is_space c); [|by apply IH].
    destruct (truthy tok) eqn:E; [constructor; [done|]|]; by apply IH.
Qed.

Lemma raw_fields_cells line : Forall cell (raw_fields line).
Proof.
  apply Forall_forall. intros f Hf. split.
  - by apply (proj1 (Forall_forall _ _) (split_go_cells _ _) f Hf).
  - by apply (proj1 (Forall_forall _ _) (split_tokens _) f Hf).
Qed.

(** Trailing white space changes nothing for [split()]. *)
Lemma split_go_rstrip p s tok :
  (∀ c, p c = true → is_space c = true) →
  split_go (rstrip_chars p s) tok = split_go s tok.
Proof.
  intros Hp. revert tok. induction s as [|c s IH]; intros tok; [done|].
  cbn [rstrip_chars]. destruct (p c && negb (truthy (rstrip_chars p s))) eqn:E.
  - apply andb_prop in E as [Hc Hr]. apply negb_true_iff in Hr.
    cbn [split_go]. rewrite (Hp _ Hc), <- (IH "").
    destruct (rstrip_chars p s); [|done]. by destruct (truthy tok).
  - cbn [split_go]. by rewrite !IH.
Qed.

Lemma split_go_snoc_space s c tok :
  is_space c = true → split_go (s +:+ of_char c) tok = split_go s tok.
Proof.
  intros Hc. revert tok. induction s as [|d s IH]; intros tok.
  - rewrite str_app_nil_l. simpl. rewrite Hc. by destruct (truthy tok).
  - rewrite str_app_cons. cbn [split_go]. by rewrite !IH.
Qed.

Lemma split_go_token t rest tok :
  forallb nonspace t = true →
  split_go (t +:+ rest) tok = split_go rest (tok +:+ t).
Proof.
  revert tok. induction t as [|c t IH]; intros tok Hall.
  - by rewrite str_app_nil_l, str_app_nil_r.
  - cbn [forallb] in Hall. apply andb_prop in Hall as [Hc Ht].
    unfold nonspace in Hc. apply negb_true_iff in Hc.
    rewrite str_app_cons. cbn [split_go]. rewrite Hc, (IH _ Ht).
    by rewrite <- str_app_assoc.
Qed.

Lemma truthy_app_r s t : truthy t = true → truthy (s +:+ t) = true.
Proof. destruct s; [done|]. by rewrite str_app_cons. Qed.

Lemma split_go_join parts :
  ∀ t tok, cell t → Forall cell parts →
    split_go (join ht (t :: parts)) tok = (tok +:+ t) :: parts.
Proof.
  induction parts as [|u parts IH]; intros t tok [Ht1 Ht2] Hall.
  - cbn. rewrite <- (str_app_nil_r t) at 1. rewrite split_go_token by done.
    cbn. by rewrite truthy_app_r.
  - apply Forall_cons in Hall as [Hu Hall].
    change (join ht (t :: u :: parts)) with (t +:+ String tab (join ht (u :: parts))).
    rewrite split_go_token by done. cbn [split_go].
    replace (is_space tab) with true by done.
    rewrite truthy_app_r by done. f_equal. by apply IH.
Qed.

Lemma raw_fields_join parts :
  parts ≠ [] → Forall cell parts → raw_fields (join ht parts +:+ nl) = parts.
Proof.
  intros Hne Hall. destruct parts as [|t parts]; [done|].
  apply Forall_cons in Hall as [Ht Hall].
  unfold raw_fields, split. rewrite split_go_rstrip.
  - unfold nl. rewrite split_go_snoc_space by done. by rewrite split_go_join.
  - intros c. unfold is_crlf. by intros [->%bool_decide_eq_true | ->%bool_decide_eq_true]%orb_prop.
Qed.

Lemma emit_inv line out :
  clean_tabular_line line = Emit out →
  length (raw_fields line) = 21 ∧
  out = join ht (reorder (raw_fields line)) +:+ nl.
Proof.
  unfold clean_tabular_line.
  destruct (negb (truthy line) || startswith line "#"); [done|].
  destruct (length (raw_fields line) =? 21) eqn:Hlen; [|done].
  apply Nat.eqb_eq in Hlen. simpl.
  destruct (raw_fields line !! 14); [|done]. destruct (raw_fields line !! 0); [|done].
  destruct (negb _); [done|]. by intros [= <-].
Qed.

Lemma raises_inv line e :
  clean_tabular_line line = Raises e → e = AssertionError.
Proof.
  unfold clean_tabular_line.
  destruct (negb (truthy line) || startswith line "#"); [done|].
  destruct (length (raw_fields line) =? 21) eqn:Hlen; [|by intros [= <-]].
  apply Nat.eqb_eq in Hlen. simpl.
  destruct (raw_fields line !! 14) eqn:E14.
  2: { apply lookup_ge_None in E14. lia. }
  destruct (raw_fields line !! 0) eqn:E0.
  2: { apply lookup_ge_None in E0. lia. }
  destruct (negb _); [by intros [= <-]|done].
Qed.

Lemma reorder_cells parts :
  length parts = 21 → Forall cell parts →
  length (reorder parts) = 20 ∧ Forall cell (reorder parts).
Proof.
  intros Hlen Hall. unfold reorder, slice. split.
  - rewrite !length_app, !length_take, !length_drop. lia.
  - repeat apply Forall_app_2;
      repeat first [apply Forall_take | apply Forall_drop]; done.
Qed.

(** X11: the fields of a line [clean_tabular] writes are never empty and
    hold no white space, so that splitting the written line at white space,
    as the script itself splits, gives back exactly its 20 fields. *)
Theorem written_line_fields line out :
  clean_tabular_line line = Emit out →
  raw_fields out = reorder (raw_fields line) ∧
  length (raw_fields out) = 20 ∧
  Forall cell (raw_fields out).
Proof.
  intros [Hlen ->]%emit_inv.
  destruct (reorder_cells _ Hlen (raw_fields_cells line)) as [H20 Hcells].
  rewrite raw_fields_join; [done|by destruct (reorder _)|done].
Qed.

(** X12: [clean_tabular] does not accept what it wrote: a written line,
    given back as input, is skipped when it begins with the hash sign and
    fails the assertion on the number of fields otherwise. *)
Theorem written_line_not_accepted line out :
  clean_tabular_line line = Emit out →
  clean_tabular_line out
  = if startswith out "#" then Skip else Raises AssertionError.
Proof.
  intros [Hlen ->]%emit_inv.
  destruct (reorder_cells _ Hlen (raw_fields_cells line)) as [H20 Hcells].
  unfold clean_tabular_line at 1.
  rewrite raw_fields_join; [|by destruct (reorder _)|done].
  replace (truthy (join ht (reorder (raw_fields line)) +:+ nl)) with true
    by (symmetry; by apply truthy_app_r).
  cbn [negb orb]. destruct (startswith _ "#"); [done|].
  by rewrite H20.
Qed.

(** X13: the table is rectangular: every line [clean_tabular] writes for
    the lines of a result file is a row of tab-separated columns ended by
    a newline, with as many columns as the header line has names. *)
Theorem table_rows_match_header raw :
  Forall (λ out, ∃ row, out = row +:+ nl ∧
                        length (split_sep tab row) = length fields)
         (normalized raw).
Proof.
  apply Forall_forall. intros out Hin. unfold normalized in Hin.
  apply list_elem_of_omap in Hin as (line & _ & Hout).
  destruct (clean_tabular_line line) as [|s|e] eqn:E; try done.
  injection Hout as ->. apply emit_inv in E as [Hlen ->].
  destruct (reorder_cells _ Hlen (raw_fields_cells line)) as [H20 Hcells].
  eexists. split; [done|]. rewrite split_sep_join.
  - by rewrite H20.
  - by destruct (reorder _).
  - eapply Forall_impl; [exact Hcells|]. intros t [_ Ht]. by apply nonspace_mem.
Qed.

Lemma clean_tabular_app pre rest out w :
  clean_tabular (pre ++ rest) out w
  = match clean_tabular pre out w with
    | (Ok _, w1) => clean_tabular rest out w1
    | (Raise e, w1) => (Raise e, w1)
    end.
Proof.
  revert w. induction pre as [|line pre IH]; intros w; [done|].
  cbn [app clean_tabular]. destruct (clean_tabular_line line) as [|s|e]; [done| |done].
  rewrite !bind_run. destruct (write out s w) as [[[]|e] w1]; [|done].
  by rewrite IH.
Qed.

(** X14: at the first line that breaks the schema [clean_tabular] stops
    with AssertionError: the lines before it are written already, in
    order, and nothing of the bad line or of the lines after it is. *)
Theorem clean_tabular_stops_at_bad_line pre bad post out w c e :
  Forall passes pre →
  clean_tabular_line bad = Raises e →
  fs w !! out = Some c →
  e = AssertionError ∧
  clean_tabular (pre ++ bad :: post) out w
  = (Raise AssertionError,
     World (<[out := c +:+ Str.concat (normalized pre)]> (fs w))
           (trace w ++ (EvWrite out <$> normalized pre))).
Proof.
  intros Hpre Hbad Hc. pose proof (raises_inv _ _ Hbad) as ->. split; [done|].
  rewrite clean_tabular_app, (clean_tabular_ok _ _ _ c) by done.
  cbn [clean_tabular]. by rewrite Hbad.
Qed.

End NormaliserMore.

(** * Whole runs of the script *)

Section Runs.

Variable system : string → gmap string string → Z * gmap string string.

(** X15: with a number of command-line words other than four (the name of
    the script and three arguments) the script writes the line on the
    arguments it requires to stderr and exits with status 1, before it
    looks at any file. *)
Theorem wrong_argument_count argv w :
  length argv ≠ 4 →
  main system argv w
  = (Raise (SystemExit 1),
     World (fs w)
           (trace w ++ [EvStderr ("Require three arguments, organism, input protein FASTA file & output tabular file" +:+ nl)])).
Proof.
  intros Hlen.
  by destruct argv as [|prog [|organism [|fasta_file [|tabular_file [|extra rest]]]]].
Qed.

Lemma fasta_loop_no_exit lines title seq e it' :
  fasta_loop lines title seq = (Raise e, it') → ∀ code, e ≠ SystemExit code.
Proof.
  revert title seq. induction lines as [|line rest IH]; intros title seq; simpl.
  - destruct (Str.truthy title); by intros [= <- <-].
  - repeat case_match; try (by intros [= <- <-]); try done; apply IH.
Qed.

Lemma drains_exn w it recs e :
  drains w it recs e → ∀ code, e ≠ SystemExit code.
Proof.
  intros Hd. induction Hd as [it it' e Hn | it it' r rs e Hn Hd IH]; [|done].
  destruct it as [f|rest title seq|]; simpl in Hn.
  - destruct (fs w !! f); [by eapply fasta_loop_no_exit | by injection Hn as <- <-].
  - by eapply fasta_loop_no_exit.
  - by injection Hn as <- <-.
Qed.

(** X16: when the generator stops with an error (a bad line, a missing
    input) the script stops with that error and status 1 while it splits:
    no command is run, the output table is not created and there is no
    clean-up, so the chunk files written before the error stay. *)
Theorem bad_input_run prog organism fasta_file tabular_file w recs e :
  organism ∈ organisms →
  drains w (fasta_iterator fasta_file) recs e →
  e ≠ StopIteration →
  ∃ w',
    main system [prog; organism; fasta_file; tabular_file] w = (Raise e, w') ∧
    exit_status (Raise (A:=unit) e) = 1%Z ∧
    (∃ evs, trace w' = trace w ++ evs ∧ Forall (chunk_event fasta_file) evs) ∧
    ∀ i, i < length recs / Z.to_nat FASTA_CHUNK →
      fs w' !! chunk_name fasta_file i
        = Some (chunk_text TRUNCATE (nth_chunk (Z.to_nat FASTA_CHUNK) recs i)).
Proof.
  intros Horg Hd He.
  pose proof (drains_exn _ _ _ _ Hd) as Hexit. unfold fasta_iterator in Hd.
  destruct (split_loop_error fasta_file FASTA_CHUNK TRUNCATE ltac:(done) e He
              (length recs / Z.to_nat FASTA_CHUNK)
              (S (gen_size (GenNew fasta_file) w)) (GenNew fasta_file) [] w recs)
    as (w' & Hrun & _ & Hfiles); [done..| |].
  { pose proof (drains_length _ _ _ _ Hd).
    assert (0 < Z.to_nat FASTA_CHUNK) by (unfold FASTA_CHUNK; lia).
    pose proof (Nat.Div0.div_le_upper_bound (length recs) (Z.to_nat FASTA_CHUNK) (length recs)).
    nia. }
  exists w'. split; [|split; [|split]].
  - cbn [main]. rewrite bool_decide_eq_true_2 by done.
    rewrite bind_run. unfold split_fasta, fasta_iterator. by rewrite Hrun.
  - destruct e; try done. by destruct (Hexit code).
  - by eapply emits_split_loop_chunks.
  - intros i Hi. by apply Hfiles.
Qed.

(** X17: when every command ends with status 0 the loop runs one command
    for each pair of a chunk file and its result file, in the order of the
    list, and ends normally; the script itself removes and writes nothing
    in between. *)
Theorem all_jobs_run organism jobs fasta_files temp_files w :
  (∀ cmd files, (system cmd files).1 = 0%Z) →
  ∃ w',
    run_jobs system organism jobs fasta_files temp_files w = (Ok (), w') ∧
    trace w' = trace w ++ ok_runs organism jobs.
Proof.
  intros Hzero. revert w. induction jobs as [|[fasta temp] rest IH]; intros w.
  - exists w. by rewrite app_nil_r.
  - cbn [run_jobs]. rewrite bind_run. unfold os_system at 1.
    pose proof (Hzero (command organism fasta temp) (fs w)) as Hst.
    destruct (system (command organism fasta temp) (fs w)) as [st fs1].
    simpl in Hst. subst st. rewrite bool_decide_eq_false_2 by (by intros []).
    set (w1 := World _ _). destruct (IH w1) as (w' & Hrun & Htr).
    exists w'. split; [done|]. rewrite Htr. subst w1. cbn [trace ok_runs fmap list_fmap].
    by rewrite <- app_assoc.
Qed.

Lemma merge_ok temp_files tabular_file contents w :
  tabular_file ∉ temp_files →
  Forall2 (λ temp text, fs w !! temp = Some text) temp_files contents →
  Forall (λ text, Forall passes (Str.lines text)) contents →
  merge temp_files tabular_file w =
    (Ok (),
     World (<[tabular_file :=
                header_line +:+ Str.concat (concat (normalized ∘ Str.lines <$> contents))]>
              (fs w))
           (trace w ++ EvOpenW tabular_file
                    :: EvWrite tabular_file header_line
                    :: (EvWrite tabular_file
                          <$> concat (normalized ∘ Str.lines <$> contents)))).
Proof.
  intros Hout Hfiles Hall.
  unfold merge. rewrite bind_run. unfold open_w at 1.
  rewrite bind_run. unfold write at 1. cbn [fs trace].
  rewrite lookup_insert_eq. cbn [default].
  erewrite (merge_files_ok _ _ contents); [| |done|apply lookup_insert_eq].
  - cbn [fs trace]. rewrite !insert_insert_eq, <- !app_assoc. done.
  - cbn [fs]. clear Hall. induction Hfiles as [|t x ts xs Ht Hfiles IH]; [constructor|].
    apply not_elem_of_cons in Hout as [Hne Hout]. constructor; [|by apply IH].
    split; [done|]. by rewrite !lookup_insert_ne.
Qed.

(** X18: a run in which the input is split, every command ends with
    status 0 and leaves a result file without a line that breaks the
    schema, and the output table is none of the intermediate files: the
    script ends normally with status 0, the table holds the header line
    and the reordered lines of the result files in the order of the
    chunks, and no chunk file and no result file is left. *)
Theorem successful_run prog organism fasta_file tabular_file w fasta_files w1 w2 contents :
  organism ∈ organisms →
  split_fasta fasta_file FASTA_CHUNK TRUNCATE w = (Ok fasta_files, w1) →
  run_jobs system organism (zip fasta_files (out_name <$> fasta_files))
           fasta_files (out_name <$> fasta_files) w1 = (Ok (), w2) →
  Forall2 (λ temp text, fs w2 !! temp = Some text) (out_name <$> fasta_files) contents →
  Forall (λ text, Forall passes (Str.lines text)) contents →
  tabular_file ∉ fasta_files ++ (out_name <$> fasta_files) →
  ∃ w' removed,
    main system [prog; organism; fasta_file; tabular_file] w = (Ok (), w') ∧
    exit_status (main system [prog; organism; fasta_file; tabular_file] w).1 = 0%Z ∧
    fs w' !! tabular_file
      = Some (header_line +:+ Str.concat (concat (normalized ∘ Str.lines <$> contents))) ∧
    (∀ p, p ∈ fasta_files ++ (out_name <$> fasta_files) → fs w' !! p = None) ∧
    (∀ p, p ∉ fasta_files ++ (out_name <$> fasta_files) → p ≠ tabular_file →
          fs w' !! p = fs w2 !! p) ∧
    trace w' = trace w1
               ++ ok_runs organism (zip fasta_files (out_name <$> fasta_files))
               ++ EvOpenW tabular_file :: EvWrite tabular_file header_line
                  :: (EvWrite tabular_file
                        <$> concat (normalized ∘ Str.lines <$> contents))
               ++ (EvRemove <$> removed).
Proof.
  intros Horg Hsplit Hjobs Hfiles Hall Htab.
  apply not_elem_of_app in Htab as [Htab1 Htab2].
  pose proof Hjobs as [[_ Htr2] | (? & ? & ? & ? & ? & _ & _ & [=] & _)]%run_jobs_spec.
  pose proof (merge_ok _ _ _ _ Htab2 Hfiles Hall) as Hmerge.
  set (w3 := World _ _) in Hmerge.
  destruct (clean_up_spec fasta_files w3) as (w4 & rm1 & Hc1 & Hfs1 & Htr4 & _).
  destruct (clean_up_spec (out_name <$> fasta_files) w4) as (w5 & rm2 & Hc2 & Hfs2 & Htr5 & _).
  assert (main system [prog; organism; fasta_file; tabular_file] w = (Ok (), w5)) as Hmain.
  { cbn [main]. rewrite bool_decide_eq_true_2 by done.
    rewrite bind_run, Hsplit. fold out_name. cbv zeta.
    rewrite bind_run, Hjobs, bind_run, Hmerge, bind_run, Hc1. exact Hc2. }
  exists w5, (rm1 ++ rm2). split; [done|]. split; [by rewrite Hmain|].
  split; [|split; [|split]].
  - rewrite Hfs2, Hfs1. rewrite !bool_decide_eq_false_2 by done.
    subst w3. cbn [fs]. apply lookup_insert_eq.
  - intros p Hp. rewrite Hfs2, Hfs1.
    apply elem_of_app in Hp as [Hp|Hp].
    + rewrite (bool_decide_eq_true_2 _ Hp). by destruct (bool_decide _).
    + by rewrite (bool_decide_eq_true_2 _ Hp).
  - intros p Hp Hne. apply not_elem_of_app in Hp as [Hp1 Hp2].
    rewrite Hfs2, Hfs1. rewrite !bool_decide_eq_false_2 by done.
    subst w3. cbn [fs]. by rewrite lookup_insert_ne.
  - rewrite Htr5, Htr4. subst w3. cbn [trace]. rewrite Htr2.
    rewrite fmap_app, <- !app_assoc. done.
Qed.

End Runs.

(** * Lines the generator and the normaliser pass over, or do not *)

Section Lines.
Import Str StrFacts StrMore.

Lemma lines_concat junk text :
  Forall ignorable junk → lines (concat junk +:+ text) = junk ++ lines text.
Proof.
  induction 1 as [|l junk [(body & -> & Hb) _] _ IH]; [done|].
  cbn [concat foldr app]. fold (concat junk).
  rewrite <- !str_app_assoc. rewrite lines_line by done. by rewrite IH.
Qed.

Lemma blank_not_title l : truthy (strip l) = false → startswith l ">" = false.
Proof.
  destruct l as [|c l]; [done|]. unfold startswith. cbn [String.prefix].
  destruct (Ascii.ascii_dec ">" c) as [<-|]; [|done].
  unfold strip, rstrip. cbn [rstrip_chars].
  replace (is_space ">") with false by done. by cbn.
Qed.

Lemma comment_not_title l : startswith l "#" = true → startswith l ">" = false.
Proof.
  destruct l as [|c l]; [done|]. unfold startswith. cbn [String.prefix].
  destruct (Ascii.ascii_dec "#" c) as [<-|]; [|done]. intros _.
  by destruct (Ascii.ascii_dec ">" "#").
Qed.

Lemma fasta_loop_ignorable junk rest :
  Forall ignorable junk → fasta_loop (junk ++ rest) "" "" = fasta_loop rest "" "".
Proof.
  induction 1 as [|l junk [_ Hl] _ IH]; [done|].
  cbn [app fasta_loop truthy].
  assert (startswith l ">" = false) as ->
    by (destruct Hl; [by apply blank_not_title | by apply comment_not_title]).
  destruct Hl as [-> | ->]; cbn [negb orb]; [done|].
  by rewrite orb_true_r.
Qed.

(** X19: blank lines and lines that begin with the hash sign, when they
    stand before the first title line of the input, change nothing: the
    generator yields the same records and ends the same way as on the
    input without them. *)
Theorem leading_comments_ignored junk text filename w1 w2 recs e :
  Forall ignorable junk →
  fs w1 !! filename = Some (concat junk +:+ text) →
  fs w2 !! filename = Some text →
  drains w1 (fasta_iterator filename) recs e ↔
  drains w2 (fasta_iterator filename) recs e.
Proof.
  intros Hjunk H1 H2.
  assert (next (fasta_iterator filename) w1 = next (fasta_iterator filename) w2) as E.
  { unfold fasta_iterator. cbn [next]. rewrite H1, H2, lines_concat by done.
    by apply fasta_loop_ignorable. }
  split; intros Hd.
  - inversion Hd as [? it' ? Hn | ? it' r rs ? Hn Hrs]; subst.
    + eapply drains_end. by rewrite <- E.
    + eapply drains_yield; [by rewrite <- E|].
      eapply drains_world; [by eapply next_not_new | done].
  - inversion Hd as [? it' ? Hn | ? it' r rs ? Hn Hrs]; subst.
    + eapply drains_end. by rewrite E.
    + eapply drains_yield; [by rewrite E|].
      eapply drains_world; [by eapply next_not_new | done].
Qed.

Lemma split_go_blank s : forallb is_space s = true → split_go s "" = [].
Proof.
  induction s as [|c s IH]; [done|]. cbn [forallb split_go].
  intros [-> Hs]%andb_prop. by apply IH.
Qed.

(** X20: a line of a result file that holds white space only, such as a
    blank line with its newline, is not skipped: it makes [clean_tabular]
    fail with AssertionError, and nothing is written for it. *)
Theorem blank_line_breaks_schema line :
  truthy line = true → forallb is_space line = true →
  clean_tabular_line line = Raises AssertionError ∧
  ∀ rest out w, clean_tabular (line :: rest) out w = (Raise AssertionError, w).
Proof.
  intros Hne Hblank.
  assert (clean_tabular_line line = Raises AssertionError) as E.
  { unfold clean_tabular_line. rewrite Hne.
    assert (startswith line "#" = false) as ->.
    { destruct line as [|c l]; [done|]. cbn [forallb] in Hblank.
      apply andb_prop in Hblank as [Hc _]. unfold startswith. cbn [String.prefix].
      destruct (Ascii.ascii_dec "#" c) as [<-|]; done. }
    cbn [negb orb].
    assert (raw_fields line = []) as ->; [|done].
    unfold raw_fields, split. rewrite split_go_rstrip; [by apply split_go_blank|].
    intros c. unfold is_crlf.
    by intros [->%bool_decide_eq_true | ->%bool_decide_eq_true]%orb_prop. }
  split; [done|]. intros rest out w. cbn [clean_tabular]. by rewrite E.
Qed.

End Lines.

(** * The chunk files: what they hold and what is read back from them *)

Section Chunks.
Import StrFacts StrMore.

Lemma is_truncation_slice_to T s : is_truncation T s (Str.slice_to T s).
Proof.
  split; [apply slice_to_prefix|].
  unfold Str.slice_to, kept_length.
  destruct (Z.leb_spec 0 T); rewrite str_take_length; lia.
Qed.

Lemma holds_records_chunk_text T group : holds_records T group (chunk_text T group).
Proof.
  exists (fasta_entry T <$> group). split.
  - apply Forall2_fmap_r, Forall_Forall2_diag, Forall_forall. intros r _.
    exists (Str.slice_to T r.2). split; [apply is_truncation_slice_to|done].
  - induction group as [|r group IH]; [done|].
    cbn [chunk_text foldr fmap list_fmap Str.concat].
    fold (chunk_text T group). fold (Str.concat (fasta_entry T <$> group)).
    by rewrite IH.
Qed.

Lemma concat_fmap_groups {A B C} (f : B → C) (g : A → list B) (l : list A) :
  concat ((λ i, f <$> g i) <$> l) = f <$> concat (g <$> l).
Proof.
  induction l as [|x l IH]; [done|]. cbn [fmap list_fmap concat].
  fold (list_fmap _ _ (λ i, f <$> g i) l). fold (list_fmap _ _ g l).
  by rewrite fmap_app, <- IH.
Qed.

Lemma truncated_records T recs :
  Forall2 (λ r b, b.1 = r.1 ∧ is_truncation T r.2 b.2) recs (truncated T <$> recs).
Proof.
  apply Forall2_fmap_r, Forall_Forall2_diag, Forall_forall. intros r _.
  split; [done|]. apply is_truncation_slice_to.
Qed.

Lemma chunk_records_plain T (n : nat) recs i :
  Forall (λ r, tidy_title r.1 ∧ Str.mem Str.lf r.2 = false) recs →
  Forall (λ r, plain_seq r.2) recs →
  Forall (λ r, tidy_title r.1 ∧ plain_seq (Str.slice_to T r.2)) (nth_chunk n recs i).
Proof.
  intros Htidy Hplain. unfold nth_chunk. apply Forall_take, Forall_drop.
  apply Forall_forall. intros r Hr.
  split; [by apply (proj1 (Forall_forall _ _) Htidy r Hr)|].
  by apply forallb_slice_to, (proj1 (Forall_forall _ _) Hplain r Hr).
Qed.

(** C1: on an input that the generator reads to its end as [N >= 1]
    records, and for a chunk size [C >= 1], [split_fasta] returns the
    [ceil(N/C)] chunk names in the order in which it created the files, and
    these are the only files it created. File [i] is made of one entry for
    each record of the [i]-th group of [C] records (the mark, the title, a
    newline, the truncated sequence, a newline) and of nothing else; each
    group before the last has exactly [C] records, the last has between 1
    and [C]. When the records are well formed in that their sequences
    hold no white space and no mark of a title line, the generator reads
    file [i] to its end as just as many records, with the same titles. *)
Theorem split_fasta_chunks filename (n T : Z) w recs :
  drains w (fasta_iterator filename) recs StopIteration →
  1 ≤ length recs →
  (1 ≤ n)%Z →
  ∃ w',
    split_fasta filename n T w
      = (Ok (chunk_name filename <$> seq 0 (ceil_div (length recs) (Z.to_nat n))), w') ∧
    created (trace w')
      = created (trace w)
        ++ (chunk_name filename <$> seq 0 (ceil_div (length recs) (Z.to_nat n))) ∧
    ∀ i, i < ceil_div (length recs) (Z.to_nat n) →
      (∃ content,
          fs w' !! chunk_name filename i = Some content ∧
          holds_records T (nth_chunk (Z.to_nat n) recs i) content) ∧
      (i < ceil_div (length recs) (Z.to_nat n) - 1 →
         length (nth_chunk (Z.to_nat n) recs i) = Z.to_nat n) ∧
      (i = ceil_div (length recs) (Z.to_nat n) - 1 →
         1 ≤ length (nth_chunk (Z.to_nat n) recs i) ≤ Z.to_nat n) ∧
      (Forall (λ r, plain_seq r.2) recs →
       ∃ back,
         drains w' (fasta_iterator (chunk_name filename i)) back StopIteration ∧
         length back = length (nth_chunk (Z.to_nat n) recs i) ∧
         back.*1 = (nth_chunk (Z.to_nat n) recs i).*1).
Proof.
  intros Hd HN Hn.
  pose proof (drains_tidy _ _ _ _ Hd I) as Htidy. unfold fasta_iterator in Hd.
  assert (0 < Z.to_nat n) as HC by lia.
  destruct (split_loop_result filename n T ltac:(lia)
              (ceil_div (length recs) (Z.to_nat n))
              (S (gen_size (GenNew filename) w)) (GenNew filename) [] w recs)
    as (w' & Hrun & Hcr & Hfiles & _); [done..| |].
  { pose proof (drains_length _ _ _ _ Hd). pose proof (ceil_div_le (length recs) _ HC).
    lia. }
  exists w'. split; [done|]. split; [done|]. intros i Hi.
  split; [|split; [|split]].
  - eexists. split; [by apply Hfiles|]. apply holds_records_chunk_text.
  - by apply nth_chunk_length.
  - by apply nth_chunk_length.
  - intros Hplain. exists (truncated T <$> nth_chunk (Z.to_nat n) recs i).
    split; [|split].
    + apply chunk_text_drains; [by apply chunk_records_plain | by apply Hfiles].
    + apply length_fmap.
    + rewrite <- list_fmap_compose. by apply list_fmap_ext.
Qed.

(** C5: on an input read to its end, for a chunk size [C >= 1], the
    returned files hold, in the returned order, the entries of groups of
    records whose concatenation is the list of the records of the input.
    When the sequences hold no white space and no mark of a title line,
    the generator reads every returned file to its end, and the records it
    reads, file after file, are as many as the records of the input and in
    the same order: each has the title of its original and, as sequence,
    the start of the original sequence that the truncate length keeps (its
    first [T] characters, or all of it when it is shorter). *)
Theorem split_fasta_roundtrip filename (n T : Z) w recs :
  drains w (fasta_iterator filename) recs StopIteration →
  (1 ≤ n)%Z →
  ∃ w' files chunks,
    split_fasta filename n T w = (Ok files, w') ∧
    concat chunks = recs ∧
    Forall2 (λ f group, ∃ content, fs w' !! f = Some content ∧
                                   holds_records T group content) files chunks ∧
    (Forall (λ r, plain_seq r.2) recs →
     ∃ backs,
       Forall2 (λ f back, drains w' (fasta_iterator f) back StopIteration) files backs ∧
       Forall2 (λ r b, b.1 = r.1 ∧ is_truncation T r.2 b.2) recs (concat backs)).
Proof.
  intros Hd Hn.
  pose proof (drains_tidy _ _ _ _ Hd I) as Htidy. unfold fasta_iterator in Hd.
  assert (0 < Z.to_nat n) as HC by lia.
  destruct (split_loop_result filename n T ltac:(lia)
              (ceil_div (length recs) (Z.to_nat n))
              (S (gen_size (GenNew filename) w)) (GenNew filename) [] w recs)
    as (w' & Hrun & _ & Hfiles & _); [done..| |].
  { pose proof (drains_length _ _ _ _ Hd). pose proof (ceil_div_le (length recs) _ HC).
    lia. }
  exists w', (chunk_name filename <$> seq 0 (ceil_div (length recs) (Z.to_nat n))),
    (nth_chunk (Z.to_nat n) recs <$> seq 0 (ceil_div (length recs) (Z.to_nat n))).
  split; [done|]. split; [by apply concat_chunks|]. split.
  - apply Forall2_fmap, Forall_Forall2_diag, Forall_seq. intros i Hi.
    eexists. split; [apply Hfiles; lia|]. apply holds_records_chunk_text.
  - intros Hplain.
    exists ((λ i, truncated T <$> nth_chunk (Z.to_nat n) recs i)
              <$> seq 0 (ceil_div (length recs) (Z.to_nat n))).
    split.
    + apply Forall2_fmap, Forall_Forall2_diag, Forall_seq. intros i Hi.
      apply chunk_text_drains; [by apply chunk_records_plain | apply Hfiles; lia].
    + rewrite concat_fmap_groups, concat_chunks by done. apply truncated_records.
Qed.

End Chunks.

(** * A command that fails, and an empty line in a result file *)

Section Failures.

Variable system : string → gmap string string → Z * gmap string string.

Lemma zip_with_image {A B} (g : A → B) (l : list A) :
  zip l (g <$> l) = (λ x, (x, g x)) <$> l.
Proof. induction l as [|x l IH]; [done|]. cbn. by f_equal. Qed.

Lemma ok_runs_chunks organism k (l : list string) :
  ok_runs organism (take k (zip l (out_name <$> l)))
  = (λ f, EvSystem ("signalp -short -t " +:+ organism +:+ " " +:+ f
                    +:+ " > " +:+ f +:+ ".out") 0%Z) <$> take k l.
Proof.
  unfold ok_runs. rewrite zip_with_image, <- fmap_take, <- list_fmap_compose.
  by apply list_fmap_ext.
Qed.

(** X21: in a run of the script, when a command returns a status other
    than 0, this is the command of some chunk [k]: the commands of the
    chunks before it were run in order and returned 0, no command is run
    after it, no file is opened or written after it, the clean-up leaves
    no chunk file and no result file, whether its command was run or not,
    one line with the status and the command goes to stderr, and the
    script ends by [sys.exit] with that status. *)
Theorem tool_failure_stops_run argv files0 r w' cmd st :
  main system argv (World files0 []) = (r, w') →
  EvSystem cmd st ∈ trace w' →
  st ≠ 0%Z →
  ∃ prog organism fasta_file tabular_file fasta_files w1 k fasta removed,
    argv = [prog; organism; fasta_file; tabular_file] ∧
    split_fasta fasta_file FASTA_CHUNK TRUNCATE (World files0 []) = (Ok fasta_files, w1) ∧
    fasta_files !! k = Some fasta ∧
    cmd = "signalp -short -t " +:+ organism +:+ " " +:+ fasta
          +:+ " > " +:+ fasta +:+ ".out" ∧
    r = Raise (SystemExit st) ∧
    Forall silent (trace w1) ∧
    trace w' = trace w1
               ++ ((λ f, EvSystem ("signalp -short -t " +:+ organism +:+ " " +:+ f
                                   +:+ " > " +:+ f +:+ ".out") 0%Z)
                     <$> take k fasta_files)
               ++ EvSystem cmd st
                  :: (EvRemove <$> removed)
               ++ [EvStderr ("Failed with error level " +:+ pretty st +:+ ", "
                             +:+ Str.repr cmd +:+ nl)] ∧
    removed ⊆ fasta_files ++ (out_name <$> fasta_files) ∧
    ∀ p, p ∈ fasta_files ++ (out_name <$> fasta_files) → fs w' !! p = None.
Proof.
  intros Hrun Hin Hst.
  assert (∀ msg, (r, w') = (Raise (SystemExit 1), World files0 ([] ++ [EvStderr msg])) → False)
    as Husage.
  { intros msg [= -> ->]. cbn [trace app] in Hin.
    by apply list_elem_of_singleton in Hin. }
  destruct argv as [|prog [|organism [|fasta_file [|tabular_file [|extra rest]]]]];
    try (exfalso; eapply Husage; rewrite <- Hrun; reflexivity).
  cbn [main] in Hrun. case_bool_decide as Horg;
    [|exfalso; eapply Husage; rewrite <- Hrun; reflexivity].
  rewrite bind_run in Hrun.
  destruct (split_fasta fasta_file FASTA_CHUNK TRUNCATE (World files0 []))
    as [[fasta_files|e] w1] eqn:Hsplit;
    pose proof (emits_split_fasta _ _ _ _ _ _ Hsplit) as (evs1 & Htr1 & Hsil1);
    cbn [trace app] in Htr1.
  2: { injection Hrun as <- <-. rewrite Htr1 in Hin.
       destruct (silent_not_system _ _ _ Hsil1 Hin). }
  rewrite bind_run in Hrun. fold out_name in Hrun. cbv zeta in Hrun.
  destruct (run_jobs system organism _ fasta_files _ w1) as [[[]|e] w2] eqn:Hjobs;
    apply run_jobs_spec in Hjobs
      as [[Hr Htr2] | (k & f & t & st' & removed & Hk & Hne & Hr & Htr2 & Hsub & Hfs)];
    try discriminate Hr.
  - assert (emits silent
              (merge (out_name <$> fasta_files) tabular_file;;
               clean_up fasta_files;;
               clean_up (out_name <$> fasta_files))) as Hrest.
    { apply emits_bind; [apply emits_merge|]. intros _.
      apply emits_bind; [apply emits_clean_up|]. intros _. apply emits_clean_up. }
    destruct (Hrest _ _ _ Hrun) as (evs3 & Htr3 & Hsil3).
    rewrite Htr3, Htr2, Htr1 in Hin.
    apply elem_of_app in Hin as [[Hin|Hin]%elem_of_app|Hin].
    + destruct (silent_not_system _ _ _ Hsil1 Hin).
    + by apply ok_runs_quiet in Hin.
    + destruct (silent_not_system _ _ _ Hsil3 Hin).
  - injection Hr as ->. injection Hrun as <- <-.
    assert (EvSystem cmd st = EvSystem (command organism f t) st') as [= -> ->].
    { rewrite Htr2, Htr1 in Hin.
      apply elem_of_app in Hin as [Hin|[Hin|Hin]%elem_of_app].
      - destruct (silent_not_system _ _ _ Hsil1 Hin).
      - by apply ok_runs_quiet in Hin.
      - apply elem_of_cons in Hin as [Hin|[Hin|Hin]%elem_of_app]; [done| |].
        + by apply list_elem_of_fmap in Hin as (? & ? & _).
        + by apply list_elem_of_singleton in Hin. }
    apply lookup_zip_with_Some in Hk as (x & y & [= -> ->] & Hx & Hy).
    rewrite list_lookup_fmap, Hx in Hy. injection Hy as <-.
    exists prog, organism, fasta_file, tabular_file, fasta_files, w1, k, x, removed.
    split; [done|]. split; [done|]. split; [done|]. split; [done|]. split; [done|].
    split; [by rewrite Htr1|]. split; [|by split].
    rewrite Htr2, ok_runs_chunks. unfold failure_message.
    by rewrite <- !StrFacts.str_app_assoc.
Qed.

End Failures.

(** C6: the script gives the value [os.system] returned to [sys.exit].
    When the tool exits with code 1 on the first chunk, that value is the
    wait status 256: the run stops after this one command, removes the
    chunk file, writes the line with the status and the command to stderr
    and raises SystemExit 256; the low eight bits of 256 are 0, so the
    process ends with status 0, as after a run without any failure. *)
Theorem tool_failure_exit_status :
  let run := main failing_system sample_argv (World {["in.fa" := sample_fasta]} []) in
  run.1 = Raise (SystemExit 256) ∧
  fs run.2 = {["in.fa" := sample_fasta]} ∧
  trace run.2 =
    [EvOpenW "in.fa.0.tmp";
     EvWrite "in.fa.0.tmp" (">s1 first" +:+ nl +:+ "MKVLAAGIVGLLLA" +:+ nl);
     EvWrite "in.fa.0.tmp" (">s2" +:+ nl +:+ "MK" +:+ nl);
     EvWrite "in.fa.0.tmp" (">s3" +:+ nl +:+ "MSTAV" +:+ nl);
     EvSystem "signalp -short -t euk in.fa.0.tmp > in.fa.0.tmp.out" 256;
     EvRemove "in.fa.0.tmp";
     EvStderr ("Failed with error level 256, 'signalp -short -t euk in.fa.0.tmp > in.fa.0.tmp.out'"
               +:+ nl)] ∧
  exit_status run.1 = 0%Z.
Proof. vm_compute. done. Qed.

Lemma lines_go_truthy s cur :
  Forall (λ l, Str.truthy l = true) (Str.lines_go s cur).
Proof.
  revert cur. induction s as [|c s IH]; intros cur; simpl.
  - destruct (Str.truthy cur) eqn:E; by repeat constructor.
  - case_bool_decide; [|by apply IH]. constructor; [|by apply IH].
    by apply truthy_app_r.
Qed.

(** C9: iterating over a file never gives the empty string, so the test
    [not line] skips nothing there: an empty line of a result file is the
    line made of its newline, and for it [clean_tabular] fails the
    assertion on the number of fields (AssertionError) instead of skipping
    it. On the sample result followed by an empty line the merge writes
    the header and the data line and then stops with that error. Lines
    that begin with the hash sign are skipped. *)
Theorem clean_tabular_empty_line_raises :
  (∀ text, "" ∉ Str.lines text) ∧
  Str.lines (sample_result +:+ nl) = [sample_comment_line; sample_raw_line; nl] ∧
  clean_tabular_line sample_comment_line = Skip ∧
  clean_tabular_line nl = Raises AssertionError ∧
  (∀ rest out w, clean_tabular (nl :: rest) out w = (Raise AssertionError, w)) ∧
  let run := merge ["in.fa.0.tmp.out"] "out.tab"
                   (World {["in.fa.0.tmp.out" := sample_result +:+ nl]} []) in
  run.1 = Raise AssertionError ∧
  fs run.2 !! "out.tab"
  = Some (header_line +:+ Str.join ht (reorder (raw_fields sample_raw_line)) +:+ nl).
Proof.
  split.
  { intros text Hin.
    by apply (proj1 (Forall_forall _ _) (lines_go_truthy text "")) in Hin. }
  vm_compute. by repeat split.
Qed.

(** * The further theorems on the sample data *)

Ltac sample_drains_tac :=
  repeat (eapply drains_yield; [reflexivity|]); eapply drains_end; reflexivity.

Ltac not_in_list H :=
  repeat (apply elem_of_cons in H as [H|H]; [discriminate H|]);
  by apply elem_of_nil in H.

Lemma fasta_iterator_records_tidy_witness :
  Forall (λ r, tidy_title r.1 ∧ Str.mem Str.lf r.2 = false) sample_records.
Proof.
  apply (fasta_iterator_records_tidy sample_world "in.fa" sample_records StopIteration).
  sample_drains_tac.
Defined.

Lemma chunk_file_read_back_witness :
  drains (World {["c.tmp" := chunk_text 5 sample_records]} [])
         (fasta_iterator "c.tmp") (truncated 5 <$> sample_records) StopIteration.
Proof.
  apply chunk_file_read_back.
  - repeat constructor.
  - reflexivity.
Defined.

Lemma split_fasta_chunks_read_back_witness :
  ∃ w', split_fasta "in.fa" 2 5 sample_world
        = (Ok ["in.fa.0.tmp"; "in.fa.1.tmp"], w') ∧
        drains w' (fasta_iterator "in.fa.1.tmp") [("s3", "MSTAV")] StopIteration.
Proof.
  destruct (split_fasta_chunks_read_back "in.fa" 2 5 sample_world sample_records)
    as (w' & H1 & H2).
  - sample_drains_tac.
  - lia.
  - repeat constructor.
  - exists w'. split; [exact H1|]. apply (H2 1). vm_compute. lia.
Defined.

Lemma split_fasta_no_chunk_size_witness :
  split_fasta "nothing.fa" 0 60 (World ∅ []) = (Ok [], World ∅ []).
Proof. apply split_fasta_no_chunk_size. lia. Defined.

Lemma split_fasta_missing_input_witness :
  split_fasta "nothing.fa" 500 60 (World ∅ [])
  = (Raise (IOError "nothing.fa"), World ∅ []).
Proof. apply split_fasta_missing_input; [reflexivity | lia]. Defined.

Lemma split_fasta_bad_input_witness :
  ∃ w', split_fasta "bad.fa" 1 60 sample_bad_world = (Raise sample_bad_line_error, w') ∧
        fs w' !! "bad.fa.0.tmp" = Some (">s1" +:+ nl +:+ "MKV" +:+ nl).
Proof.
  destruct (split_fasta_bad_input "bad.fa" 1 60 sample_bad_world [("s1", "MKV")]
              sample_bad_line_error) as (w' & H1 & _ & H2).
  - sample_drains_tac.
  - discriminate.
  - lia.
  - exists w'. split; [exact H1|]. apply (H2 0). vm_compute. lia.
Defined.

Lemma written_line_fields_witness :
  length (raw_fields (Str.join ht (reorder (raw_fields sample_raw_line)) +:+ nl)) = 20.
Proof.
  refine (proj1 (proj2 (written_line_fields sample_raw_line _ _))).
  vm_compute. reflexivity.
Defined.

Lemma written_line_not_accepted_witness :
  clean_tabular_line (Str.join ht (reorder (raw_fields sample_raw_line)) +:+ nl)
  = Raises AssertionError.
Proof.
  refine (written_line_not_accepted sample_raw_line _ _).
  vm_compute. reflexivity.
Defined.

Lemma clean_tabular_stops_at_bad_line_witness :
  (clean_tabular ([sample_comment_line; sample_raw_line] ++ sample_short_line :: [sample_raw_line])
                 "out.tab" (World {["out.tab" := header_line]} [])).1
  = Raise AssertionError.
Proof.
  destruct (clean_tabular_stops_at_bad_line [sample_comment_line; sample_raw_line]
              sample_short_line [sample_raw_line] "out.tab"
              (World {["out.tab" := header_line]} []) header_line AssertionError)
    as [_ ->]; [| | |done].
  - repeat constructor; intros e He; vm_compute in He; discriminate He.
  - vm_compute. reflexivity.
  - reflexivity.
Defined.

Lemma wrong_argument_count_witness :
  exit_status (main failing_system ["signalp3.py"; "euk"] sample_world).1 = 1%Z.
Proof.
  rewrite (wrong_argument_count failing_system ["signalp3.py"; "euk"] sample_world);
    [reflexivity | simpl; lia].
Defined.

Lemma bad_input_run_witness :
  ∃ w', main failing_system ["signalp3.py"; "euk"; "bad.fa"; "out.tab"] sample_bad_world
        = (Raise sample_bad_line_error, w').
Proof.
  destruct (bad_input_run failing_system "signalp3.py" "euk" "bad.fa" "out.tab"
              sample_bad_world [("s1", "MKV")] sample_bad_line_error)
    as (w' & H & _).
  - by left.
  - sample_drains_tac.
  - discriminate.
  - exists w'. exact H.
Defined.

Lemma all_jobs_run_witness :
  ∃ w', run_jobs sample_system "euk" [("in.fa.0.tmp", "in.fa.0.tmp.out")] [] [] sample_world
        = (Ok (), w').
Proof.
  destruct (all_jobs_run sample_system "euk" [("in.fa.0.tmp", "in.fa.0.tmp.out")] [] []
              sample_world) as (w' & H & _); [done|].
  exists w'. exact H.
Defined.

Lemma successful_run_witness :
  ∃ w', main sample_system sample_argv sample_world = (Ok (), w') ∧
        fs w' !! "in.fa.0.tmp.out" = None.
Proof.
  destruct (successful_run sample_system "signalp3.py" "euk" "in.fa" "out.tab" sample_world
              ["in.fa.0.tmp"]
              (split_fasta "in.fa" FASTA_CHUNK TRUNCATE sample_world).2
              (run_jobs sample_system "euk" [("in.fa.0.tmp", "in.fa.0.tmp.out")]
                        ["in.fa.0.tmp"] ["in.fa.0.tmp.out"]
                        (split_fasta "in.fa" FASTA_CHUNK TRUNCATE sample_world).2).2
              [sample_result])
    as (w' & removed & H1 & _ & _ & H2 & _).
  - by left.
  - vm_compute. reflexivity.
  - vm_compute. reflexivity.
  - repeat constructor.
  - repeat constructor; intros e He; vm_compute in He; discriminate He.
  - intros Hin. not_in_list Hin.
  - exists w'. split; [exact H1|]. apply H2. right. left.
Defined.

Lemma leading_comments_ignored_witness :
  drains (World {["in.fa" := Str.concat ["# made by hand" +:+ nl; nl] +:+ sample_fasta]} [])
         (fasta_iterator "in.fa") sample_records StopIteration.
Proof.
  apply (leading_comments_ignored ["# made by hand" +:+ nl; nl] sample_fasta "in.fa"
           _ sample_world).
  - apply Forall_cons. split; [split; [by exists "# made by hand" | by right]|].
    apply Forall_cons. split; [split; [by exists "" | by left]|]. constructor.
  - reflexivity.
  - reflexivity.
  - sample_drains_tac.
Defined.

Lemma blank_line_breaks_schema_witness :
  clean_tabular_line ("  " +:+ nl) = Raises AssertionError.
Proof. apply (blank_line_breaks_schema ("  " +:+ nl)); reflexivity. Defined.

Lemma split_fasta_chunks_witness :
  ∃ w' back,
    split_fasta "in.fa" 2 5 sample_world = (Ok ["in.fa.0.tmp"; "in.fa.1.tmp"], w') ∧
    drains w' (fasta_iterator "in.fa.0.tmp") back StopIteration ∧
    length back = 2.
Proof.
  destruct (split_fasta_chunks "in.fa" 2 5 sample_world sample_records)
    as (w' & Hrun & _ & Hfiles); [apply sample_drains | simpl; lia | lia |].
  destruct (Hfiles 0) as (_ & _ & _ & Hback); [vm_compute; lia|].
  destruct Hback as (back & Hd & Hlen & _); [repeat constructor|].
  exists w', back. split; [exact Hrun|]. split; [exact Hd | exact Hlen].
Defined.

Lemma split_fasta_roundtrip_witness :
  ∃ w' files backs,
    split_fasta "in.fa" 2 5 sample_world = (Ok files, w') ∧
    Forall2 (λ f back, drains w' (fasta_iterator f) back StopIteration) files backs ∧
    Forall2 (λ r b, b.1 = r.1 ∧ is_truncation 5 r.2 b.2) sample_records (concat backs).
Proof.
  destruct (split_fasta_roundtrip "in.fa" 2 5 sample_world sample_records)
    as (w' & files & chunks & Hrun & _ & _ & Hback); [apply sample_drains | lia |].
  destruct Hback as (backs & H1 & H2); [repeat constructor|].
  exists w', files, backs. auto.
Defined.

Lemma tool_failure_stops_run_witness :
  (main failing_system sample_argv (World {["in.fa" := sample_fasta]} [])).1
  = Raise (SystemExit 256).
Proof.
  destruct (tool_failure_stops_run failing_system sample_argv {["in.fa" := sample_fasta]}
              (main failing_system sample_argv (World {["in.fa" := sample_fasta]} [])).1
              (main failing_system sample_argv (World {["in.fa" := sample_fasta]} [])).2
              "signalp -short -t euk in.fa.0.tmp > in.fa.0.tmp.out" 256)
    as (? & ? & ? & ? & ? & ? & ? & ? & ? & _ & _ & _ & _ & Hr & _).
  - by destruct (main _ _ _).
  - apply list_elem_of_lookup. exists 4. vm_compute. reflexivity.
  - lia.
  - exact Hr.
Defined.
